(** * proptech: the metric library and the report assembler

    A shallow embedding of [proptech/models.py], [proptech/features.py] and
    the metric block of [proptech/cli.py], together with the properties of
    the specification that concern them.

    Numbers.  The amounts, rates and areas of the library are annotated
    [float]; a Python [float] is an IEEE-754 binary64 value.  It is modelled by the
    standard library's executable specification of binary floating point
    ([SpecFloat], precision 53, maximal exponent 1024), with round to
    nearest even, signed zeros, infinities and NaN.  What Python adds on
    top of IEEE arithmetic is modelled explicitly: a float division whose
    divisor compares equal to zero raises [ZeroDivisionError], and the
    conversion of an [int] too large for binary64 raises [OverflowError]. *)

From Stdlib Require Import ZArith NArith List Lia QArith Qabs Qpower Lqa String Ascii.
From Stdlib Require Import Floats.SpecFloat.
From stdpp Require Import gmap strings list.

Local Open Scope Z_scope.

(** ** Exceptions *)

Inductive exn : Type :=
| ZeroDivisionError
| OverflowError
| KeyError
| ValueError.

Inductive result (A : Type) : Type :=
| Ok (a : A)
| Raise (e : exn).

Arguments Ok {A} a.
Arguments Raise {A} e.

Definition bind {A B : Type} (r : result A) (k : A -> result B) : result B :=
  match r with
  | Ok a => k a
  | Raise e => Raise e
  end.

Notation "'perform' x <- r ; k" := (bind r (fun x => k))
  (at level 10, x name, r at level 100, k at level 200).

Definition returns {A : Type} (r : result A) : Prop := exists a, r = Ok a.

(** ** Python floats *)

Module Float.

Definition prec : Z := 53.
Definition emax : Z := 1024.

Definition float : Type := spec_float.

Definition add : float -> float -> float := SFadd prec emax.
Definition sub : float -> float -> float := SFsub prec emax.
Definition mul : float -> float -> float := SFmul prec emax.
Definition div : float -> float -> float := SFdiv prec emax.
Definition leb : float -> float -> bool := SFleb.
Definition ltb : float -> float -> bool := SFltb.
Definition eqb : float -> float -> bool := SFeqb.

(** [x >= y] and [x > y] are [y <= x] and [y < x]; with a NaN operand
    all four comparisons are false. *)
Definition geb (x y : float) : bool := leb y x.
Definition gtb (x y : float) : bool := ltb y x.

(** The value of [m * 2^e], rounded to nearest even. *)
Definition of_scaled (m e : Z) : float := binary_normalize prec emax m e false.

(** The float nearest to an integer. *)
Definition of_Z (z : Z) : float := of_scaled z 0.

(** A decimal literal [m / 10^k], correctly rounded: both [m] and
    [10^k] are exact when below [2^53], and [div] rounds once. *)
Definition decimal (m : Z) (k : Z) : float := div (of_Z m) (of_Z (10 ^ k)).

Definition zero : float := S754_zero false.
Definition one : float := of_Z 1.
Definition inf : float := S754_infinity false.
Definition nan : float := S754_nan.

Definition is_zero (x : float) : bool :=
  match x with
  | S754_zero _ => true
  | _ => false
  end.

Definition is_nan (x : float) : bool :=
  match x with
  | S754_nan => true
  | _ => false
  end.

(** [max(a, b)] and [min(a, b)] of the builtins: [b] if [b > a], or if
    [b < a], and [a] otherwise. *)
Definition max (a b : float) : float := if gtb b a then b else a.
Definition min (a b : float) : float := if ltb b a then b else a.

(** [float(z)] and the implicit conversion of an [int] operand: an
    integer that rounds to an infinity, from [2^1024 - 2^970] on, is "too
    large to convert to float". *)
Definition of_int (z : Z) : result float :=
  match of_Z z with
  | S754_infinity _ => Raise OverflowError
  | f => Ok f
  end.

(** [a / b] on floats. *)
Definition truediv (a b : float) : result float :=
  if is_zero b then Raise ZeroDivisionError else Ok (div a b).

(** [a / n] with [n] an [int]. *)
Definition truediv_int (a : float) (n : Z) : result float :=
  perform b <- of_int n; truediv a b.

(** [sum(xs)]: the items are added from left to right onto the integer
    [0], which the first addition converts to [0.0]; the sum of no item
    is that [0], which stands for [0.0] wherever the library uses it.
    (CPython 3.12 and later carry a compensation term along, which can
    change the last bits of a sum that is not exact; the sums evaluated
    in this file, and the bound on a sum of equal items, are those of
    the additions from left to right.) *)
Definition sum (xs : list float) : float := fold_left add xs zero.

(** An integer as an unrounded float: the mantissa is the integer
    itself, of whatever size. *)
Definition exact_int (z : Z) : float :=
  match z with
  | Z0 => S754_zero false
  | Zpos p => S754_finite false p 0
  | Zneg p => S754_finite true p 0
  end.

(** [a / b] on two [int]s: the quotient of the integers, rounded once;
    a quotient beyond the floats is "too large for a float". *)
Definition int_truediv (a b : Z) : result float :=
  if b =? 0 then Raise ZeroDivisionError
  else
    match div (exact_int a) (exact_int b) with
    | S754_infinity _ => Raise OverflowError
    | q => Ok q
    end.

(** The value of a float as a rational number: [2^e], and the signed
    mantissa times it; a zero, and what is no number, read 0. *)
Definition pow2 (e : Z) : Q := Qpower 2 e.

Definition to_Q (x : float) : Q :=
  match x with
  | S754_finite s m e => ((if s then -1 else 1) * inject_Z (Z.pos m) * pow2 e)%Q
  | _ => 0%Q
  end.

Definition is_finite (x : float) : bool :=
  match x with
  | S754_finite _ _ _ | S754_zero _ => true
  | _ => false
  end.

(** The place of an exact value between a truncated mantissa and its
    successor, as the round bit and the sticky bit of the rounding
    record it: the round bit says whether the value has reached the
    middle, the sticky bit whether it lies off both the mantissa and
    the middle. *)
Definition inbetween (mrs : shr_record) (x : Q) : Prop :=
  (inject_Z (shr_m mrs) <= x /\ x < inject_Z (shr_m mrs) + 1
   /\ (if shr_r mrs then inject_Z (shr_m mrs) + (1#2) <= x
       else x < inject_Z (shr_m mrs) + (1#2))
   /\ (if shr_s mrs
       then ~ x == inject_Z (shr_m mrs) /\ ~ x == inject_Z (shr_m mrs) + (1#2)
       else x == inject_Z (shr_m mrs) \/ x == inject_Z (shr_m mrs) + (1#2)))%Q.

End Float.

Declare Scope float_scope.
Delimit Scope float_scope with fl.
Infix "+" := Float.add : float_scope.
Infix "-" := Float.sub : float_scope.
Infix "*" := Float.mul : float_scope.
Infix "<=?" := Float.leb : float_scope.
Infix ">=?" := Float.geb (at level 70) : float_scope.
Infix ">?" := Float.gtb : float_scope.
Infix "=?" := Float.eqb : float_scope.

(** ** Python dicts

    A [dict] keeps its keys in insertion order, and the order decides in
    which order [sum] adds floats: a dict is an association list without
    repeated keys. *)

Module Dict.

Definition t (K V : Type) : Type := list (K * V).

Section Ops.
Context {K V : Type} `{EqDecision K}.

Definition keys (d : t K V) : list K := map fst d.
Definition values (d : t K V) : list V := map snd d.
Definition wf (d : t K V) : Prop := NoDup (keys d).

(** [d[k]], [None] standing for a missing key. *)
Fixpoint lookup (k : K) (d : t K V) : option V :=
  match d with
  | [] => None
  | (k', v) :: d' => if decide (k = k') then Some v else lookup k d'
  end.

(** [d.get(k, default)] *)
Definition get (d : t K V) (k : K) (default : V) : V :=
  match lookup k d with
  | Some v => v
  | None => default
  end.

(** [d[k] = v]: a present key keeps its position, a new one goes last. *)
Fixpoint set (d : t K V) (k : K) (v : V) : t K V :=
  match d with
  | [] => [(k, v)]
  | (k', v') :: d' => if decide (k = k') then (k', v) :: d' else (k', v') :: set d' k v
  end.

(** [d[k]] where a missing key raises. *)
Definition item (d : t K V) (k : K) : result V :=
  match lookup k d with
  | Some v => Ok v
  | None => Raise KeyError
  end.

End Ops.

End Dict.

(** [[f(x) for x in xs]] with a fallible [f], evaluated left to right. *)
Fixpoint comprehension {A B : Type} (f : A -> result B) (xs : list A) : result (list B) :=
  match xs with
  | [] => Ok []
  | x :: xs' =>
      perform y <- f x;
      perform ys <- comprehension f xs';
      Ok (y :: ys)
  end.

(** ** The domain model ([models.py]) *)

Module Models.

(** A [UUID] is its 128-bit integer value. *)
Definition UUID : Type := N.

(** A [date] is its proleptic Gregorian ordinal ([date.toordinal()]):
    dates compare as their ordinals do, and [(d1 - d2).days] is the
    difference of the ordinals. *)
Definition date : Type := Z.

Module Datetime.
Record t : Type := { date : Models.date; microsecond_of_day : Z }.
End Datetime.

Module Parcel.
Record t : Type := {
  id : UUID;
  muni_id : string;
  zoning : string;
  geom_wkt : string }.
End Parcel.

Module Building.
Record t : Type := {
  id : UUID;
  parcel_id : UUID;
  year_built : Z;
  structure : string;
  floors : Z;
  bua_m2 : Float.float }.
End Building.

Module Unit.
Record t : Type := {
  id : UUID;
  building_id : UUID;
  use_type : string;
  nla_m2 : Float.float;
  floor_no : Z;
  bedrooms : option Z;
  orientation : option string }.
End Unit.

Module Lease.
Record t : Type := {
  id : UUID;
  unit_id : UUID;
  tenant_hash : string;
  start_date : date;
  end_date : date;
  rent_monthly : Float.float;
  deposit : Float.float;
  status : string }.
End Lease.

Module Meter.
Record t : Type := {
  id : UUID;
  scope : string;
  scope_id : UUID;
  type : string;
  provider_acct : option string }.
End Meter.

Module MeterReading.
Record t : Type := {
  meter_id : UUID;
  ts : Datetime.t;
  value : Float.float }.
End MeterReading.

Module Permit.
Record t : Type := {
  id : UUID;
  scope : string;
  scope_id : UUID;
  kind : string;
  status : string;
  issued_on : date;
  completed_on : option date;
  permit_no : string }.
End Permit.

Module TitleRecord.
Record t : Type := {
  id : UUID;
  scope : string;
  scope_id : UUID;
  owner_hash : string;
  deed_no : string;
  encumbrance : gmap string string;
  effective_on : date }.
End TitleRecord.

(** [str.lower()] on the letters [A]..[Z]; the other characters of the
    string are kept.  (A string is the sequence of its UTF-8 bytes here;
    the lower-case form of a character outside ASCII has none of the
    letters of [free] and [released], so that the test of the title flag
    is the same on every string.) *)
Definition lower_char (c : ascii) : ascii :=
  let n := nat_of_ascii c in
  if (65 <=? n)%nat && (n <=? 90)%nat then ascii_of_nat (n + 32) else c.

Fixpoint lower (s : string) : string :=
  match s with
  | EmptyString => EmptyString
  | String c s' => String (lower_char c) (lower s')
  end.

Definition title_clean_flag_from_record (t : option TitleRecord.t) : bool :=
  match t with
  | None => false
  | Some t =>
      bool_decide
        (lower (default EmptyString (TitleRecord.encumbrance t !! "lien_status"%string))
           ∈ ({[ "free"%string; "released"%string ]} : gset string))
  end.

Section Calendar.

(** [d.year]: the calendar that gives a date its year is a parameter. *)
Variable year : date -> Z.

(** [today] is [date.today()]. *)
Definition building_age_years (today : date) (b : Building.t) (asof : option date) : Z :=
  let asof := default today asof in
  Z.max 0 (year asof - Building.year_built b).

End Calendar.

End Models.

(** ** The metric library ([features.py]) *)

Module Features.

Import Models.

Local Open Scope float_scope.

Abbreviation float := Float.float.

(** *** 1) Valuation and investment metrics *)

Definition noi (rent_monthly_sum other_income_monthly opex_monthly : float) : float :=
  (rent_monthly_sum + other_income_monthly - opex_monthly) * Float.of_Z 12.

Definition cap_rate (noi_annual value : float) : result float :=
  if value <=? Float.zero then Ok Float.zero else Float.truediv noi_annual value.

Definition value_from_cap (noi_annual market_cap_rate : float) : result float :=
  if market_cap_rate <=? Float.zero then Ok Float.inf
  else Float.truediv noi_annual market_cap_rate.

Definition dscr (noi_annual annual_debt_service : float) : result float :=
  if annual_debt_service <=? Float.zero then Ok Float.zero
  else Float.truediv noi_annual annual_debt_service.

Definition equity_multiple (total_distributions total_equity_invested : float) : result float :=
  if total_equity_invested <=? Float.zero then Ok Float.zero
  else Float.truediv total_distributions total_equity_invested.

Definition yield_on_cost (stabilized_noi_annual total_project_cost : float) : result float :=
  if total_project_cost <=? Float.zero then Ok Float.zero
  else Float.truediv stabilized_noi_annual total_project_cost.

(** *** 2) Lending and borrower affordability *)

Definition ltv (current_loan_balance property_value : float) : result float :=
  if property_value <=? Float.zero then Ok Float.zero
  else Float.truediv current_loan_balance property_value.

Definition cltv (total_liens_balance property_value : float) : result float :=
  if property_value <=? Float.zero then Ok Float.zero
  else Float.truediv total_liens_balance property_value.

Definition dti (monthly_debt_obligations monthly_gross_income : float) : result float :=
  if monthly_gross_income <=? Float.zero then Ok Float.zero
  else Float.truediv monthly_debt_obligations monthly_gross_income.

Definition residual_income (monthly_income monthly_expenses_ex_debt monthly_debt : float) : float :=
  monthly_income - (monthly_expenses_ex_debt + monthly_debt).

(** *** 3) Capital markets and securitization *)

(** [min(d for d, _ in items)] on a non-empty list: the first of the
    smallest items. *)
Definition min_date (d0 : date) (ds : list date) : date :=
  fold_left (fun m d => if (d <? m)%Z then d else m) ds d0.

(** [365.25] is [1461 / 4], exactly. *)
Definition days_per_year : float := Float.of_scaled 1461 (-2).

(** The inner function [years_between] of [weighted_average_life]; the
    day count of a [timedelta] is below [10^9] in absolute value, where
    its conversion to a float is exact. *)
Definition years_between (t0 d : date) : result float :=
  Float.truediv (Float.of_Z (d - t0)) days_per_year.

Definition weighted_average_life (schedule : list (date * float)) : result float :=
  let items := schedule in
  match items with
  | [] => Ok Float.zero
  | (d0, _) :: rest =>
      let total_prin := Float.sum (map snd items) in
      if total_prin <=? Float.zero then Ok Float.zero
      else
        let t0 := min_date d0 (map fst rest) in
        perform terms <-
          comprehension
            (fun '(d, p) => perform y <- years_between t0 d; Ok (y * p)) items;
        Float.truediv (Float.sum terms) total_prin
  end.

(** The dict of the three flags of [tape_qc_flags]. *)
Record qc_flags : Type := {
  valuation_missing : bool;
  permit_stale : bool;
  title_not_clean : bool }.

(** [today] is [date.today()]. *)
Definition tape_qc_flags (today : date) (valuation_date permit_completed_on : option date)
  (title_clean_flag : bool) : qc_flags :=
  {| valuation_missing := match valuation_date with None => true | Some _ => false end;
     permit_stale :=
       match permit_completed_on with
       | None => true
       | Some completed_on => (3650 <? today - completed_on)%Z
       end;
     title_not_clean := negb title_clean_flag |}.

(** *** 4) Leasing and revenue management *)

(** The generator [l.rent_monthly for l in active_leases if l.status == "active"]. *)
Fixpoint rents_of_active (active_leases : list Lease.t) : list float :=
  match active_leases with
  | [] => []
  | l :: ls =>
      if String.eqb (Lease.status l) "active" then Lease.rent_monthly l :: rents_of_active ls
      else rents_of_active ls
  end.

Definition rent_roll_total (active_leases : list Lease.t) : float :=
  Float.sum (rents_of_active active_leases).

(** The set comprehension [{l.unit_id for l in leases if l.status == "active"}]. *)
Fixpoint occupied_units (leases : list Lease.t) : gset UUID :=
  match leases with
  | [] => ∅
  | l :: ls =>
      if String.eqb (Lease.status l) "active" then {[ Lease.unit_id l ]} ∪ occupied_units ls
      else occupied_units ls
  end.

(** The set comprehension [{u.id for u in units}]. *)
Fixpoint unit_id_set (units : list Unit.t) : gset UUID :=
  match units with
  | [] => ∅
  | u :: us => {[ Unit.id u ]} ∪ unit_id_set us
  end.

(** [a / b] on two [int]s; both are sizes of sets here, which are below
    [2^53], where the conversions are exact and the quotient is rounded
    once. *)
Definition len_truediv (a b : nat) : result float :=
  if (b =? 0)%nat then Raise ZeroDivisionError
  else Ok (Float.div (Float.of_Z (Z.of_nat a)) (Float.of_Z (Z.of_nat b))).

Definition occupancy_rate (units : list Unit.t) (leases : list Lease.t) : result float :=
  let unit_ids := unit_id_set units in
  let occupied := occupied_units leases in
  let denom := size unit_ids in
  if (denom =? 0)%nat then Ok Float.zero
  else len_truediv (size (unit_ids ∩ occupied)) denom.

(** The days are [int]s, and their [sum] is exact. *)
Definition avg_time_to_lease (days_vacant_list : list Z) : result float :=
  let lst := days_vacant_list in
  match lst with
  | [] => Ok Float.zero
  | _ :: _ => Float.int_truediv (fold_left Z.add lst 0%Z) (Z.of_nat (length lst))
  end.

(** *** 5) Operations, maintenance and CapEx *)

(** [x / len(xs)]: a length is at most [sys.maxsize], so that its
    conversion to a float cannot overflow. *)
Definition truediv_len (x : float) (n : nat) : result float :=
  Float.truediv x (Float.of_Z (Z.of_nat n)).

Definition kwh_per_m2_day_from_series (unit_obj : Unit.t) (readings_daily_kwh : list float)
  : result float :=
  let vals := readings_daily_kwh in
  if (Unit.nla_m2 unit_obj <=? Float.zero) || (length vals =? 0)%nat then Ok Float.zero
  else
    perform mean <- truediv_len (Float.sum vals) (length vals);
    Float.truediv mean (Unit.nla_m2 unit_obj).

Definition mttr (total_repair_time_hours : float) (tickets_closed : Z) : result float :=
  if (tickets_closed <=? 0)%Z then Ok Float.zero
  else Float.truediv_int total_repair_time_hours tickets_closed.

Definition opex_per_unit (total_opex_monthly : float) (unit_count : Z) : result float :=
  if (unit_count <=? 0)%Z then Ok Float.zero
  else Float.truediv_int total_opex_monthly unit_count.

(** *** 6) Compliance, permits, legal certainty *)

Definition days_since_last_occupancy (today : date) (perm : option Permit.t) : option Z :=
  match perm with
  | None => None
  | Some perm =>
      match Permit.completed_on perm with
      | None => None
      | Some completed_on => Some (today - completed_on)%Z
      end
  end.

Definition title_clean_flag_from_record (t : option TitleRecord.t) : bool :=
  match t with
  | None => false
  | Some t =>
      bool_decide
        (lower (default EmptyString (TitleRecord.encumbrance t !! "lien_status"%string))
           ∈ ({[ "free"%string; "released"%string ]} : gset string))
  end.

Definition zoning_mismatch (actual_use zoning_code : string)
  (allowed_map : gmap string (list string)) : bool :=
  let allowed := default [] (allowed_map !! zoning_code) in
  negb (bool_decide (actual_use ∈ allowed)).

(** *** 7) ESG, energy and resilience *)

Definition water_intensity_m3_per_m2_year (m3_per_year nla_m2 : float) : result float :=
  if nla_m2 <=? Float.zero then Ok Float.zero else Float.truediv m3_per_year nla_m2.

Definition simple_hazard_distance_score (distance_m threshold_m : float) : result float :=
  if distance_m >=? threshold_m then Ok Float.one
  else
    perform ratio <- Float.truediv distance_m threshold_m;
    Ok (Float.max Float.zero ratio).

(** *** 8) Market intelligence and strategy *)

Definition turnover_rate (leases_ended total_units : Z) : result float :=
  if (total_units <=? 0)%Z then Ok Float.zero
  else Float.int_truediv leases_ended total_units.

(** *** 9) Development and site selection *)

Definition far (gfa_m2 lot_area_m2 : float) : result float :=
  if lot_area_m2 <=? Float.zero then Ok Float.zero else Float.truediv gfa_m2 lot_area_m2.

Definition coverage_ratio (footprint_m2 lot_area_m2 : float) : result float :=
  if lot_area_m2 <=? Float.zero then Ok Float.zero else Float.truediv footprint_m2 lot_area_m2.

Definition parking_ratio (spaces units_count : Z) : result float :=
  if (units_count <=? 0)%Z then Ok Float.zero
  else Float.int_truediv spaces units_count.

(** *** 10) Insurance and risk transfer *)

Definition deductible_effect_expected_cost
  (expected_annual_claim_sar deductible_sar claim_count_per_year : float) : result float :=
  if claim_count_per_year <=? Float.zero then Ok expected_annual_claim_sar
  else
    perform expected_per_claim <-
      Float.truediv expected_annual_claim_sar claim_count_per_year;
    let reduction := Float.min deductible_sar expected_per_claim * claim_count_per_year in
    Ok (Float.max Float.zero (expected_annual_claim_sar - reduction)).

(** *** 12) Tenant and occupant analytics *)



Definition amenity_utilization (used_slots total_slots : Z) : result float :=
  if (total_slots <=? 0)%Z then Ok Float.zero
  else Float.int_truediv used_slots total_slots.

Definition cohort_churn_rate (ended_leases_in_cohort cohort_size : Z) : result float :=
  if (cohort_size <=? 0)%Z then Ok Float.zero
  else Float.int_truediv ended_leases_in_cohort cohort_size.

(** *** 13) Portfolio construction and hedging *)

Definition exposure_by_bucket (values_by_bucket : list (string * float))
  : Dict.t string float :=
  fold_left
    (fun agg '(bucket, v) => Dict.set agg bucket (Dict.get agg bucket Float.zero + v))
    values_by_bucket [].

Definition simple_risk_parity_weights (variances : Dict.t string float)
  : result (Dict.t string float) :=
  perform inv <-
    comprehension
      (fun '(k, v) =>
         perform w <- (if v <=? Float.zero then Ok Float.zero else Float.truediv Float.one v);
         Ok (k, w))
      variances;
  let total := Float.sum (Dict.values inv) in
  comprehension
    (fun k =>
       perform w <-
         (if total =? Float.zero then Ok Float.zero
          else perform x <- Dict.item inv k; Float.truediv x total);
       Ok (k, w))
    (Dict.keys inv).

(** *** 14) Islamic finance *)

Definition murabaha_equal_installments_schedule (cost_price profit_markup : float) (months : Z)
  : result (list float) :=
  let total_price := cost_price * (Float.one + profit_markup) in
  if (months <=? 0)%Z then Ok [total_price]
  else
    perform installment <- Float.truediv_int total_price months;
    Ok (repeat installment (Z.to_nat months)).

(** *** 15) Standard reports and exports

    The [title], [permit_occupancy] and [valuation] sections of the
    export; the sections that print identifiers and the date of the day
    are left out. *)

Module LosTitle.
Record t : Type := {
  present : bool;
  deed_no : option string;
  clean : bool }.
End LosTitle.

Module LosPermit.
Record t : Type := {
  present : bool;
  completed_on : option date }.
End LosPermit.

Module LosValuation.
Record t : Type := {
  avm_value : option float;
  valuation_date : option date }.
End LosValuation.

Record los_package : Type := {
  los_title : LosTitle.t;
  los_permit_occupancy : LosPermit.t;
  los_valuation : LosValuation.t }.

Definition los_package_dict (u : Unit.t) (b : Building.t) (p : Parcel.t)
  (latest_title : option TitleRecord.t) (latest_permit : option Permit.t)
  (avm_value : option float) (valuation_date : option date) : los_package :=
  {| los_title :=
       {| LosTitle.present := match latest_title with Some _ => true | None => false end;
          LosTitle.deed_no :=
            match latest_title with
            | Some t => Some (TitleRecord.deed_no t)
            | None => None
            end;
          LosTitle.clean := title_clean_flag_from_record latest_title |};
     los_permit_occupancy :=
       {| LosPermit.present :=
            match latest_permit with
            | Some perm => String.eqb (Permit.kind perm) "occupancy"
            | None => false
            end;
          LosPermit.completed_on :=
            match latest_permit with
            | Some perm => Permit.completed_on perm
            | None => None
            end |};
     los_valuation :=
       {| LosValuation.avm_value := avm_value;
          LosValuation.valuation_date := valuation_date |} |}.

End Features.

(** ** The report assembler ([cli.py])

    [main] up to the document it prints.  The data adapter of [db.py]
    talks to the database; its queries are a record of functions here,
    together with the clock that the adapter reads, and the current
    date is an argument.  The sections of the document that only copy
    fetched fields ([parcel], [building], [unit], [_meta]) are left
    out. *)

Module Cli.

Import Models Features.

Abbreviation float := Float.float.

Record args : Type := {
  unit_id : UUID;
  days_back : Z;
  assumed_cap_rate : float;
  loan_balance : float }.

(** The defaults of the argument parser. *)
Definition default_days_back : Z := 7.
Definition default_assumed_cap_rate : float := Float.decimal 6 2.
Definition default_loan_balance : float := Float.zero.

(** [fetch_unit_core] raises [ValueError] for a unit that is not found:
    [None] here.  [utcnow] is [datetime.utcnow()] as [fetch_readings]
    reads it, and [meter_reading_rows] the rows that its query returns
    for a meter and a start of the window. *)
Record db : Type := {
  fetch_unit_core : UUID -> option (Unit.t * Building.t * Parcel.t);
  fetch_active_leases : UUID -> list Lease.t;
  fetch_latest_permit_for_building : UUID -> option Permit.t;
  fetch_latest_title : UUID -> UUID -> option TitleRecord.t;
  fetch_unit_meters : UUID -> list Meter.t;
  utcnow : Datetime.t;
  meter_reading_rows : UUID -> Datetime.t -> list MeterReading.t }.

(** [timedelta(days=n)]: a [timedelta] holds at most 999999999 days,
    either way. *)
Definition timedelta_days (n : Z) : result Z :=
  if Z.abs n <=? 999999999 then Ok n else Raise OverflowError.

(** [dt - delta] for a [delta] of whole days: the time of day is kept,
    and the day must be one of the years 1 to 9999, whose ordinals are
    1 to 3652059. *)
Definition datetime_sub (dt : Datetime.t) (days : Z) : result Datetime.t :=
  let d := (Datetime.date dt - days)%Z in
  if (1 <=? d) && (d <=? 3652059)
  then Ok {| Datetime.date := d;
             Datetime.microsecond_of_day := Datetime.microsecond_of_day dt |}
  else Raise OverflowError.

(** [fetch_readings] of [db.py]: the start of the window is computed
    before the query is sent. *)
Definition fetch_readings (data : db) (meter_id : UUID) (days_back : Z)
  : result (list MeterReading.t) :=
  perform delta <- timedelta_days days_back;
  perform ts_from <- datetime_sub (utcnow data) delta;
  Ok (meter_reading_rows data meter_id ts_from).

Record leases_section : Type := {
  active_count : nat;
  rent_monthly_total : float }.

Record valuation_section : Type := {
  valuation_assumed_cap_rate : float;
  noi_annual : float;
  implied_value : float;
  ltv_from_input_balance : option float }.

Record compliance_section : Type := {
  days_since_occupancy : option Z;
  title_clean : bool }.

Record energy_section : Type := {
  kwh_per_m2_day : float;
  window_days : Z }.

Record report : Type := {
  leases : leases_section;
  valuation : valuation_section;
  compliance : compliance_section;
  energy : energy_section }.

(** The loop that adds the readings up per calendar day. *)
Definition readings_by_day (readings : list MeterReading.t) : Dict.t date float :=
  fold_left
    (fun by_day r =>
       let d := Datetime.date (MeterReading.ts r) in
       Dict.set by_day d (Float.add (Dict.get by_day d Float.zero) (MeterReading.value r)))
    readings [].

Definition main (data : db) (today : date) (a : args) : result report :=
  match fetch_unit_core data (unit_id a) with
  | None => Raise ValueError
  | Some (u, b, p) =>
      let leases := fetch_active_leases data (Unit.id u) in
      let permit := fetch_latest_permit_for_building data (Building.id b) in
      let title := fetch_latest_title data (Unit.id u) (Parcel.id p) in
      let meters := fetch_unit_meters data (Unit.id u) in
      let elec := List.find (fun m => String.eqb (Meter.type m) "electricity") meters in
      perform readings <-
        (match elec with
         | Some m => fetch_readings data (Meter.id m) (days_back a)
         | None => Ok []
         end);
      let monthly_rent := rent_roll_total leases in
      let annual_noi := noi monthly_rent Float.zero Float.zero in
      perform assumed_value <- value_from_cap annual_noi (assumed_cap_rate a);
      perform current_ltv <-
        (if Float.gtb (loan_balance a) Float.zero
         then perform x <- ltv (loan_balance a) assumed_value; Ok (Some x)
         else Ok None);
      perform occ_rate <- occupancy_rate [u] leases;
      let days_since_occ := days_since_last_occupancy today permit in
      let title_ok := Features.title_clean_flag_from_record title in
      let by_day := readings_by_day readings in
      perform intensity <-
        (match by_day with
         | [] => Ok Float.zero
         | _ :: _ => kwh_per_m2_day_from_series u (Dict.values by_day)
         end);
      Ok {| leases := {| active_count := length leases; rent_monthly_total := monthly_rent |};
            valuation := {| valuation_assumed_cap_rate := assumed_cap_rate a;
                            noi_annual := annual_noi;
                            implied_value := assumed_value;
                            ltv_from_input_balance := current_ltv |};
            compliance := {| days_since_occupancy := days_since_occ; title_clean := title_ok |};
            energy := {| kwh_per_m2_day := intensity; window_days := days_back a |} |}
  end.

End Cli.

(** ** The library over exact rationals

    [simple_risk_parity_weights] once more, with the rationals in place
    of binary64: the arithmetic the sum "to 1" of the specification is
    meant in. *)

Module Exact.

Local Open Scope Q_scope.

Definition truediv (a b : Q) : result Q :=
  if Qeq_bool b 0 then Raise ZeroDivisionError else Ok (a / b).

Definition sum (xs : list Q) : Q := fold_left Qplus xs 0.

Definition simple_risk_parity_weights (variances : Dict.t string Q)
  : result (Dict.t string Q) :=
  perform inv <-
    comprehension
      (fun '(k, v) =>
         perform w <- (if Qle_bool v 0 then Ok 0 else truediv 1 v);
         Ok (k, w))
      variances;
  let total := sum (Dict.values inv) in
  comprehension
    (fun k =>
       perform w <-
         (if Qeq_bool total 0 then Ok 0
          else perform x <- Dict.item inv k; truediv x total);
       Ok (k, w))
    (Dict.keys inv).

End Exact.

(** ** The vocabulary of the specification *)

Module Spec.

Import Models.

(** A lease whose status is the string [active]. *)
Definition is_active (l : Lease.t) : bool := String.eqb (Lease.status l) "active".

(** The sum of [rent_monthly] over the leases whose status is [active]. *)
Definition active_rent_sum (leases : list Lease.t) : Float.float :=
  Float.sum (map Lease.rent_monthly (List.filter is_active leases)).

(** Two leases that differ at most in their identifiers, tenant, deposit
    and date window. *)
Definition same_rent_and_status (l1 l2 : Lease.t) : Prop :=
  Lease.rent_monthly l1 = Lease.rent_monthly l2 /\ Lease.status l1 = Lease.status l2.

(** The distinct unit ids of a collection of units. *)
Definition distinct_unit_ids (units : list Unit.t) : list UUID :=
  remove_dups (map Unit.id units).

(** The unit id is the [unit_id] of at least one active lease. *)
Definition has_active_lease (leases : list Lease.t) (i : UUID) : bool :=
  existsb (fun l => is_active l && N.eqb (Lease.unit_id l) i) leases.

(** The number of distinct unit ids that have an active lease. *)
Definition occupied_unit_count (units : list Unit.t) (leases : list Lease.t) : nat :=
  length (List.filter (has_active_lease leases) (distinct_unit_ids units)).

(** [t0] is the earliest of the dates. *)
Definition earliest (t0 : date) (dates : list date) : Prop :=
  In t0 dates /\ forall d, In d dates -> (t0 <= d)%Z.

(** The days from [t0] to [d], divided by 365.25: the divisor is the
    decimal literal, whatever the library divides by. *)
Definition years_since (t0 d : date) : Float.float :=
  Float.div (Float.of_Z (d - t0)) (Float.decimal 36525 2).

(** The sum of [years_i * payment_i], divided by the sum of the payments. *)
Definition wal_formula (t0 : date) (schedule : list (date * Float.float)) : Float.float :=
  Float.div
    (Float.sum (map (fun '(d, p) => Float.mul (years_since t0 d) p) schedule))
    (Float.sum (map snd schedule)).



(** Two characters that are equal, or the upper-case and the lower-case
    form of one letter. *)
Definition is_upper (c : ascii) : bool :=
  (65 <=? nat_of_ascii c)%nat && (nat_of_ascii c <=? 90)%nat.

Definition eqb_ignore_case_char (a b : ascii) : bool :=
  Ascii.eqb a b
  || (is_upper a && (nat_of_ascii a + 32 =? nat_of_ascii b)%nat)
  || (is_upper b && (nat_of_ascii b + 32 =? nat_of_ascii a)%nat).

(** Two strings that are equal up to the case of their letters. *)
Fixpoint eqb_ignore_case (s1 s2 : string) : bool :=
  match s1, s2 with
  | EmptyString, EmptyString => true
  | String a s1', String b s2' => eqb_ignore_case_char a b && eqb_ignore_case s1' s2'
  | _, _ => false
  end.

(** The encumbrance has a [lien_status], and it reads [free] or
    [released] up to case. *)
Definition lien_is_clear (encumbrance : gmap string string) : Prop :=
  exists v,
    encumbrance !! "lien_status"%string = Some v
    /\ (eqb_ignore_case v "free" = true \/ eqb_ignore_case v "released" = true).

(** The 256 characters. *)
Definition all_ascii : list ascii := map ascii_of_nat (seq 0 256).

(** The distinct items of a list, in the order of their first occurrence. *)
Fixpoint first_occurrences {K : Type} `{EqDecision K} (ks : list K) : list K :=
  match ks with
  | [] => []
  | k :: ks' => k :: List.filter (fun k' => negb (bool_decide (k' = k))) (first_occurrences ks')
  end.

(** The values recorded for a bucket, in the order of the input. *)
Definition bucket_values (b : string) (values_by_bucket : list (string * Float.float))
  : list Float.float :=
  map snd (List.filter (fun x => bool_decide (fst x = b)) values_by_bucket).

(** The values read on a day, in the order of the readings. *)
Definition day_values (d : date) (readings : list MeterReading.t) : list Float.float :=
  map MeterReading.value
    (List.filter (fun r => bool_decide (Datetime.date (MeterReading.ts r) = d)) readings).

(** The calendar days that have a reading, in the order of their first
    reading, and the total read on each of them. *)
Definition reading_days (readings : list MeterReading.t) : list date :=
  first_occurrences (map (fun r => Datetime.date (MeterReading.ts r)) readings).

Definition daily_totals (readings : list MeterReading.t) : list Float.float :=
  map (fun d => Float.sum (day_values d readings)) (reading_days readings).

(** The mean of the daily values over the net leasable area, [0.0]
    without a positive area or without a value. *)
Definition mean_intensity (u : Unit.t) (daily : list Float.float) : Float.float :=
  if Float.leb (Unit.nla_m2 u) Float.zero || (length daily =? 0)%nat then Float.zero
  else Float.div
         (Float.div (Float.sum daily) (Float.of_Z (Z.of_nat (length daily))))
         (Unit.nla_m2 u).

(** A meter of type [electricity]. *)
Definition is_electricity (m : Meter.t) : bool := String.eqb (Meter.type m) "electricity".

(** A window of [days_back] days before [utcnow] exists: the number of
    days fits a [timedelta], and the day it leads to is one of the
    years 1 to 9999. *)
Definition window_in_range (utcnow : Datetime.t) (days_back : Z) : bool :=
  (-999999999 <=? days_back)%Z && (days_back <=? 999999999)%Z
  && (1 <=? Datetime.date utcnow - days_back)%Z
  && (Datetime.date utcnow - days_back <=? 3652059)%Z.

(** The start of that window: the same time of day, [days_back] days
    earlier. *)
Definition window_start (utcnow : Datetime.t) (days_back : Z) : Datetime.t :=
  {| Datetime.date := (Datetime.date utcnow - days_back)%Z;
     Datetime.microsecond_of_day := Datetime.microsecond_of_day utcnow |}.

(** The readings that the report of a unit is computed from: the rows
    of its first electricity meter from the start of the window on, and
    none without such a meter. *)
Definition unit_readings (data : Cli.db) (a : Cli.args) (u : Unit.t) : list MeterReading.t :=
  match List.find is_electricity (Cli.fetch_unit_meters data (Unit.id u)) with
  | Some m =>
      Cli.meter_reading_rows data (Meter.id m)
        (window_start (Cli.utcnow data) (Cli.days_back a))
  | None => []
  end.

(** The readings of a unit can be asked for: it has no electricity
    meter, for which no reading is fetched, or the window exists. *)
Definition readings_in_reach (data : Cli.db) (a : Cli.args) (u : Unit.t) : Prop :=
  existsb is_electricity (Cli.fetch_unit_meters data (Unit.id u)) = true ->
  window_in_range (Cli.utcnow data) (Cli.days_back a) = true.

End Spec.

(** ** Sample records *)

Module Sample.

Import Models.

Definition parcel : Parcel.t :=
  {| Parcel.id := 300%N; Parcel.muni_id := "M-1"; Parcel.zoning := "R2";
     Parcel.geom_wkt := "POLYGON EMPTY" |}.

Definition building : Building.t :=
  {| Building.id := 200%N; Building.parcel_id := 300%N; Building.year_built := 2010;
     Building.structure := "concrete"; Building.floors := 5;
     Building.bua_m2 := Float.of_Z 1200 |}.

Definition unit (i : UUID) : Unit.t :=
  {| Unit.id := i; Unit.building_id := 200%N; Unit.use_type := "residential";
     Unit.nla_m2 := Float.of_Z 80; Unit.floor_no := 2; Unit.bedrooms := Some 2;
     Unit.orientation := None |}.

Definition lease (unit_id : UUID) (rent : Z) (status : string) : Lease.t :=
  {| Lease.id := 400%N; Lease.unit_id := unit_id; Lease.tenant_hash := "t";
     Lease.start_date := 738000; Lease.end_date := 738365;
     Lease.rent_monthly := Float.of_Z rent; Lease.deposit := Float.zero;
     Lease.status := status |}.

Definition title (encumbrance : gmap string string) : TitleRecord.t :=
  {| TitleRecord.id := 500%N; TitleRecord.scope := "unit"; TitleRecord.scope_id := 1%N;
     TitleRecord.owner_hash := "o"; TitleRecord.deed_no := "D-1";
     TitleRecord.encumbrance := encumbrance; TitleRecord.effective_on := 737000 |}.

Definition meter : Meter.t :=
  {| Meter.id := 600%N; Meter.scope := "unit"; Meter.scope_id := 1%N;
     Meter.type := "electricity"; Meter.provider_acct := None |}.

Definition reading (day : date) (kwh : Z) : MeterReading.t :=
  {| MeterReading.meter_id := 600%N;
     MeterReading.ts := {| Datetime.date := day; Datetime.microsecond_of_day := 0 |};
     MeterReading.value := Float.of_Z kwh |}.

Definition today : date := 739000.

(** A store with the single unit [1], let at 5000 a month. *)
Definition data : Cli.db :=
  {| Cli.fetch_unit_core := fun i => if (i =? 1)%N then Some (unit 1%N, building, parcel) else None;
     Cli.fetch_active_leases := fun i => if (i =? 1)%N then [lease 1%N 5000 "active"] else [];
     Cli.fetch_latest_permit_for_building := fun _ => None;
     Cli.fetch_latest_title := fun _ _ => Some (title {[ "lien_status"%string := "FREE"%string ]});
     Cli.fetch_unit_meters := fun i => if (i =? 1)%N then [meter] else [];
     Cli.utcnow := {| Datetime.date := 739000; Datetime.microsecond_of_day := 0 |};
     Cli.meter_reading_rows :=
       fun _ _ => [reading 738999 12; reading 738999 8; reading 739000 10] |}.

Definition args (loan_balance : Z) : Cli.args :=
  {| Cli.unit_id := 1%N; Cli.days_back := Cli.default_days_back;
     Cli.assumed_cap_rate := Cli.default_assumed_cap_rate;
     Cli.loan_balance := Float.of_Z loan_balance |}.

(** A unit without net leasable area. *)
Definition unit_without_area : Unit.t :=
  {| Unit.id := 2%N; Unit.building_id := 200%N; Unit.use_type := "storage";
     Unit.nla_m2 := Float.zero; Unit.floor_no := 0; Unit.bedrooms := None;
     Unit.orientation := None |}.

Definition permit (kind : string) (completed_on : option date) : Permit.t :=
  {| Permit.id := 700%N; Permit.scope := "building"; Permit.scope_id := 200%N;
     Permit.kind := kind; Permit.status := "completed"; Permit.issued_on := 729000;
     Permit.completed_on := completed_on; Permit.permit_no := "P-1" |}.

(** A store with the single unit [1], vacant and without a meter. *)
Definition vacant_data : Cli.db :=
  {| Cli.fetch_unit_core := fun i => if (i =? 1)%N then Some (unit 1%N, building, parcel) else None;
     Cli.fetch_active_leases := fun _ => [];
     Cli.fetch_latest_permit_for_building := fun _ => Some (permit "completion" (Some 730000));
     Cli.fetch_latest_title := fun _ _ => None;
     Cli.fetch_unit_meters := fun _ => [];
     Cli.utcnow := {| Datetime.date := 739000; Datetime.microsecond_of_day := 0 |};
     Cli.meter_reading_rows := fun _ _ => [] |}.

Definition args_days_back (days_back : Z) : Cli.args :=
  {| Cli.unit_id := 1%N; Cli.days_back := days_back;
     Cli.assumed_cap_rate := Cli.default_assumed_cap_rate;
     Cli.loan_balance := Cli.default_loan_balance |}.

Definition args_with (assumed_cap_rate : Float.float) (loan_balance : Z) : Cli.args :=
  {| Cli.unit_id := 1%N; Cli.days_back := Cli.default_days_back;
     Cli.assumed_cap_rate := assumed_cap_rate;
     Cli.loan_balance := Float.of_Z loan_balance |}.

End Sample.

(** * Properties *)

Lemma Ok_injective {A : Type} (a b : A) : Ok a = Ok b -> a = b.
Proof. now intros [= ->]. Qed.

(** ** Floats *)

Lemma not_le_zero_nonzero (x : Float.float) :
  Float.leb x Float.zero = false -> Float.is_zero x = false.
Proof. destruct x as [s | s | | s m e]; try destruct s; reflexivity || discriminate. Qed.


Lemma truediv_guarded (a b : Float.float) :
  Float.leb b Float.zero = false -> Float.truediv a b = Ok (Float.div a b).
Proof. intros H. unfold Float.truediv. now rewrite (not_le_zero_nonzero _ H). Qed.

(** The conversion of a non-zero integer is never a zero: the mantissa
    keeps at least one bit through both shifts of the rounding. *)

Lemma digits2_size (p : positive) : digits2_pos p = Pos.size p.
Proof. induction p; simpl; congruence. Qed.

Lemma digits2_lower (p : positive) : 2 ^ (Z.pos (digits2_pos p) - 1) <= Z.pos p.
Proof.
  rewrite digits2_size.
  pose proof (Pos.size_le p) as H.
  apply Pos2Z.pos_le_pos in H.
  assert (E : Z.pos (2 ^ Pos.size p) = 2 ^ Z.succ (Z.pos (Pos.size p) - 1)).
  { rewrite Pos2Z.inj_pow. f_equal. lia. }
  rewrite E, Z.pow_succ_r in H by lia.
  lia.
Qed.

Lemma iter_pos_nat {A : Type} (f : A -> A) (p : positive) (x : A) :
  SpecFloat.iter_pos f p x = Nat.iter (Pos.to_nat p) f x.
Proof.
  revert x. induction p as [p IH | p IH |]; intros x; cbn [SpecFloat.iter_pos].
  - rewrite !IH. rewrite Pos2Nat.inj_xI.
    replace (S (2 * Pos.to_nat p))%nat with (Pos.to_nat p + (Pos.to_nat p + 1))%nat by lia.
    rewrite !Nat.iter_add. reflexivity.
  - rewrite !IH. rewrite Pos2Nat.inj_xO.
    replace (2 * Pos.to_nat p)%nat with (Pos.to_nat p + Pos.to_nat p)%nat by lia.
    rewrite Nat.iter_add. reflexivity.
  - reflexivity.
Qed.

Lemma shr_1_m (mrs : shr_record) :
  0 <= shr_m mrs -> shr_m (shr_1 mrs) = shr_m mrs / 2.
Proof.
  destruct mrs as [m r s]; simpl. intros Hm.
  destruct m as [| [p | p |] | p]; cbn [shr_m]; try reflexivity; try lia.
  - apply Z.div_unique with 1; lia.
  - apply Z.div_unique with 0; lia.
Qed.

Lemma shr_iter_m (n : nat) (mrs : shr_record) :
  0 <= shr_m mrs -> shr_m (Nat.iter n shr_1 mrs) = shr_m mrs / 2 ^ Z.of_nat n.
Proof.
  intros Hm. induction n as [| n IH].
  - simpl. now rewrite Z.div_1_r.
  - assert (Hp : 0 < 2 ^ Z.of_nat n) by (apply Z.pow_pos_nonneg; lia).
    rewrite Nat2Z.inj_succ, Z.pow_succ_r by lia. rewrite Nat.iter_succ.
    rewrite shr_1_m.
    + rewrite IH. rewrite Z.div_div by lia. f_equal. lia.
    + rewrite IH. apply Z.div_pos; lia.
Qed.

Lemma shr_fexp_positive (m : positive) (e : Z) (l : location) :
  -1074 <= e ->
  exists m' r s e',
    shr_fexp Float.prec Float.emax (Z.pos m) e l
    = ({| shr_m := Z.pos m'; shr_r := r; shr_s := s |}, e')
    /\ -1074 <= e'.
Proof.
  intros He. unfold shr_fexp, shr.
  set (n := fexp Float.prec Float.emax (Zdigits2 (Z.pos m) + e) - e).
  assert (Hn : n <= Z.pos (digits2_pos m) - 1).
  { unfold n, fexp, emin, Float.prec, Float.emax. cbn [Zdigits2]. lia. }
  pose proof (digits2_lower m) as Hd.
  destruct n as [| k | k] eqn:En.
  - destruct l as [| []]; cbn; eauto 10.
  - rewrite iter_pos_nat.
    set (mrs := shr_record_of_loc (Z.pos m) l).
    assert (Hm : shr_m mrs = Z.pos m) by (unfold mrs; destruct l as [| []]; reflexivity).
    pose proof (shr_iter_m (Pos.to_nat k) mrs) as Hi.
    rewrite Hm in Hi. specialize (Hi ltac:(lia)).
    rewrite positive_nat_Z in Hi.
    assert (Hq : 1 <= Z.pos m / 2 ^ Z.pos k).
    { apply Z.div_le_lower_bound.
      - apply Z.pow_pos_nonneg; lia.
      - rewrite Z.mul_1_r. etransitivity; [| exact Hd].
        apply Z.pow_le_mono_r; lia. }
    destruct (Nat.iter (Pos.to_nat k) shr_1 mrs) as [m' r s]. cbn [shr_m] in Hi.
    destruct m' as [| m' | m']; try lia.
    exists m', r, s, (e + Z.pos k). split; [reflexivity | lia].
  - destruct l as [| []]; cbn; eauto 10.
Qed.

Lemma round_nearest_even_positive (m : positive) (l : location) :
  exists m', round_nearest_even (Z.pos m) l = Z.pos m'.
Proof.
  destruct l as [| []]; cbn [round_nearest_even];
    try destruct (Z.even (Z.pos m)); cbn; eauto.
Qed.

Lemma binary_round_aux_nonzero (sx : bool) (m : positive) (e : Z) (l : location) :
  -1074 <= e ->
  Float.is_zero (binary_round_aux Float.prec Float.emax sx (Z.pos m) e l) = false.
Proof.
  intros He. unfold binary_round_aux.
  destruct (shr_fexp_positive m e l He) as (m1 & r1 & s1 & e1 & -> & He1).
  cbn [shr_m].
  destruct (round_nearest_even_positive m1
              (loc_of_shr_record {| shr_m := Z.pos m1; shr_r := r1; shr_s := s1 |}))
    as (m2 & ->).
  destruct (shr_fexp_positive m2 e1 loc_Exact He1) as (m3 & r3 & s3 & e3 & -> & He3).
  cbn [shr_m]. now destruct (e3 <=? Float.emax - Float.prec).
Qed.

Lemma of_Z_nonzero (z : Z) : z <> 0 -> Float.is_zero (Float.of_Z z) = false.
Proof.
  intros Hz. unfold Float.of_Z, Float.of_scaled, binary_normalize.
  assert (H : forall sx (p : positive),
             Float.is_zero (binary_round Float.prec Float.emax sx p 0) = false).
  { intros sx p. unfold binary_round, shl_align.
    set (f := fexp Float.prec Float.emax (Z.pos (digits2_pos p) + 0)).
    assert (Hf : -1074 <= f) by (unfold f, fexp, emin, Float.prec, Float.emax; lia).
    destruct (f - 0) as [| d | d] eqn:Ed; apply binary_round_aux_nonzero; lia. }
  destruct z as [| p | p]; [congruence | apply H | apply H].
Qed.

Lemma of_int_nonzero (z : Z) (f : Float.float) :
  z <> 0 -> Float.of_int z = Ok f -> Float.is_zero f = false.
Proof.
  intros Hz. unfold Float.of_int. pose proof (of_Z_nonzero z Hz) as H.
  destruct (Float.of_Z z); intros E; inversion E; subst; assumption || discriminate.
Qed.

(** An integer below [2^53] converts without rounding: its mantissa is
    shifted up to 53 bits and neither shift of the rounding moves it. *)

Lemma digits2_shift (p k : positive) :
  Z.pos (digits2_pos (Pos.iter xO p k)) = Z.pos (digits2_pos p) + Z.pos k.
Proof.
  induction k as [| k IH] using Pos.peano_ind.
  - cbn. lia.
  - rewrite Pos.iter_succ. cbn [digits2_pos]. lia.
Qed.

Lemma shr_fexp_exact (m : positive) (e : Z) :
  Z.pos (digits2_pos m) = 53 -> -1074 <= e ->
  shr_fexp Float.prec Float.emax (Z.pos m) e loc_Exact
  = ({| shr_m := Z.pos m; shr_r := false; shr_s := false |}, e).
Proof.
  intros Hd He. unfold shr_fexp. cbn [Zdigits2]. rewrite Hd.
  replace (fexp Float.prec Float.emax (53 + e) - e) with 0
    by (unfold fexp, emin, Float.prec, Float.emax; lia).
  reflexivity.
Qed.

Lemma binary_round_aux_exact (sx : bool) (m : positive) (e : Z) :
  Z.pos (digits2_pos m) = 53 -> -1074 <= e <= 971 ->
  binary_round_aux Float.prec Float.emax sx (Z.pos m) e loc_Exact = S754_finite sx m e.
Proof.
  intros Hd He. unfold binary_round_aux.
  rewrite shr_fexp_exact by lia. cbn [shr_m loc_of_shr_record round_nearest_even].
  rewrite shr_fexp_exact by lia. cbn [shr_m].
  replace (e <=? Float.emax - Float.prec) with true; [reflexivity |].
  symmetry. apply Z.leb_le. unfold Float.emax, Float.prec. lia.
Qed.

Lemma binary_round_small (sx : bool) (p : positive) :
  Z.pos p < 2 ^ 53 ->
  exists m e, binary_round Float.prec Float.emax sx p 0 = S754_finite sx m e.
Proof.
  intros Hp. unfold binary_round, shl_align.
  assert (Hd : Z.pos (digits2_pos p) <= 53).
  { destruct (Z.le_gt_cases (Z.pos (digits2_pos p)) 53) as [H | H]; [exact H |].
    exfalso. pose proof (digits2_lower p) as Hl.
    assert (2 ^ 53 <= 2 ^ (Z.pos (digits2_pos p) - 1)) by (apply Z.pow_le_mono_r; lia).
    lia. }
  replace (fexp Float.prec Float.emax (Z.pos (digits2_pos p) + 0) - 0) with (Z.pos (digits2_pos p) - 53)
    by (unfold fexp, emin, Float.prec, Float.emax; lia).
  replace (fexp Float.prec Float.emax (Z.pos (digits2_pos p) + 0)) with (Z.pos (digits2_pos p) - 53)
    by (unfold fexp, emin, Float.prec, Float.emax; lia).
  destruct (Z.pos (digits2_pos p) - 53) as [| k | k] eqn:E; try lia.
  - eexists _, _. apply binary_round_aux_exact; lia.
  - eexists _, _. apply binary_round_aux_exact.
    + rewrite digits2_shift. lia.
    + lia.
Qed.

Lemma of_int_small (z : Z) : 0 < z < 2 ^ 53 -> returns (Float.of_int z).
Proof.
  intros [Hz Hb]. destruct z as [| p | p]; try lia.
  destruct (binary_round_small false p Hb) as (m & e & E).
  unfold Float.of_int, Float.of_Z, Float.of_scaled, binary_normalize.
  rewrite E. now exists (S754_finite false m e).
Qed.

(** ** Rounding errors

    An addition or a division whose result is a normal number returns
    the exact result within a relative error of [2^-53]: the rounding
    shifts the exact mantissa down to 53 bits, keeps track of what it
    shifts out in two bits, and moves to the nearest neighbour. *)

Lemma pow2_pos (e : Z) : (0 < Float.pow2 e)%Q.
Proof. apply Qpower_0_lt. reflexivity. Qed.

Lemma pow2_add (a b : Z) : (Float.pow2 (a + b) == Float.pow2 a * Float.pow2 b)%Q.
Proof. apply Qpower_plus. discriminate. Qed.

Lemma pow2_Z (e : Z) : 0 <= e -> (Float.pow2 e == inject_Z (2 ^ e))%Q.
Proof. intros He. unfold Float.pow2. now rewrite Zpower_Qpower. Qed.

Lemma pow2_le (a b : Z) : a <= b -> (Float.pow2 a <= Float.pow2 b)%Q.
Proof. intros H. apply Qpower_le_compat_l; [exact H | discriminate]. Qed.

Lemma pow2_lt (a b : Z) : a < b -> (Float.pow2 a < Float.pow2 b)%Q.
Proof. intros H. apply Qpower_lt_compat_l; [exact H | reflexivity]. Qed.

Lemma pow2_lt_inv (a b : Z) : (Float.pow2 a < Float.pow2 b)%Q -> a < b.
Proof. intros H. apply (Qpower_lt_compat_l_inv 2); [exact H | reflexivity]. Qed.

Lemma pow2_sub (a b : Z) : (Float.pow2 (a - b) * Float.pow2 b == Float.pow2 a)%Q.
Proof. rewrite <- pow2_add. now replace (a - b + b) with a by lia. Qed.

Lemma digits2_upper (p : positive) : Z.pos p < 2 ^ Z.pos (digits2_pos p).
Proof.
  rewrite digits2_size. pose proof (Pos.size_gt p) as H.
  apply Pos2Z.pos_lt_pos in H. now rewrite Pos2Z.inj_pow in H.
Qed.

Lemma digits2_unique (p : positive) (k : Z) :
  2 ^ (k - 1) <= Z.pos p < 2 ^ k -> Z.pos (digits2_pos p) = k.
Proof.
  intros [Hl Hu]. pose proof (digits2_lower p) as Hl'. pose proof (digits2_upper p) as Hu'.
  assert (Hk : 0 < k).
  { destruct (Z.lt_ge_cases 0 k) as [H | H]; [exact H |].
    rewrite Z.pow_neg_r in Hu by lia || (destruct (Z.eq_dec k 0); subst; simpl in *; lia).
    lia. }
  destruct (Z.lt_trichotomy (Z.pos (digits2_pos p)) k) as [H | [H | H]]; [| exact H |].
  - exfalso. assert (2 ^ Z.pos (digits2_pos p) <= 2 ^ (k - 1)) by (apply Z.pow_le_mono_r; lia).
    lia.
  - exfalso. assert (2 ^ k <= 2 ^ (Z.pos (digits2_pos p) - 1)) by (apply Z.pow_le_mono_r; lia).
    lia.
Qed.

Lemma inject_Z_xO (p : positive) : (inject_Z (Z.pos p~0) == 2 * inject_Z (Z.pos p))%Q.
Proof. rewrite Pos2Z.inj_xO, inject_Z_mult. reflexivity. Qed.

Lemma inject_Z_xI (p : positive) : (inject_Z (Z.pos p~1) == 2 * inject_Z (Z.pos p) + 1)%Q.
Proof. rewrite Pos2Z.inj_xI, inject_Z_plus, inject_Z_mult. reflexivity. Qed.

Ltac solve_inbetween :=
  repeat match goal with |- _ /\ _ => split end;
  try lra; try (intros F; lra); try (left; lra); try (right; lra).

Lemma inbetween_shr_1 (mrs : shr_record) (x : Q) :
  0 <= shr_m mrs -> Float.inbetween mrs x -> Float.inbetween (shr_1 mrs) (x * (1#2)).
Proof.
  destruct mrs as [m r s]. unfold Float.inbetween. cbn [shr_m shr_r shr_s]. intros Hm.
  destruct m as [| [p | p |] | p]; try lia; cbn [shr_1 shr_m shr_r shr_s];
    try (pose proof (inject_Z_xO p) as E0; pose proof (inject_Z_xI p) as E1);
    change (inject_Z 0) with 0%Q; change (inject_Z 1) with 1%Q;
    destruct r, s; cbn [orb]; intros (H1 & H2 & H3 & H4);
    try (destruct H4 as [H4 | H4]); solve_inbetween.
Qed.

Lemma inbetween_ext (mrs : shr_record) (x y : Q) :
  (x == y)%Q -> Float.inbetween mrs x -> Float.inbetween mrs y.
Proof.
  destruct mrs as [m r s]. unfold Float.inbetween. cbn [shr_m shr_r shr_s].
  intros E (H1 & H2 & H3 & H4). destruct r, s;
    try (destruct H4 as [H4 | H4]); solve_inbetween.
Qed.

Lemma inbetween_shr_iter (n : nat) (mrs : shr_record) (x : Q) :
  0 <= shr_m mrs -> Float.inbetween mrs x ->
  Float.inbetween (Nat.iter n shr_1 mrs) (x * Float.pow2 (- Z.of_nat n)).
Proof.
  intros Hm Hx. induction n as [| n IH].
  - cbn [Nat.iter]. apply (inbetween_ext _ x); [| exact Hx].
    change (Float.pow2 (- Z.of_nat 0)) with 1%Q. lra.
  - rewrite Nat.iter_succ.
    apply (inbetween_ext _ (x * Float.pow2 (- Z.of_nat n) * (1#2))).
    + replace (- Z.of_nat (S n)) with (- Z.of_nat n + -1) by lia.
      rewrite pow2_add. change (Float.pow2 (-1)) with (1#2)%Q. lra.
    + apply inbetween_shr_1; [| exact IH].
      rewrite shr_iter_m by exact Hm. apply Z.div_pos; [exact Hm |].
      apply Z.pow_pos_nonneg; lia.
Qed.

Lemma inbetween_shr (mrs : shr_record) (e n : Z) (x : Q) :
  0 <= shr_m mrs -> 0 <= n -> Float.inbetween mrs x ->
  exists mrs',
    shr mrs e n = (mrs', e + n)
    /\ Float.inbetween mrs' (x * Float.pow2 (- n))
    /\ shr_m mrs' = shr_m mrs / 2 ^ n.
Proof.
  intros Hm Hn Hx. destruct n as [| p | p]; try lia.
  - exists mrs. cbn [shr]. rewrite Z.add_0_r. split; [reflexivity | split].
    + apply (inbetween_ext _ x); [| exact Hx]. change (Float.pow2 (- 0)) with 1%Q. lra.
    + now rewrite Z.pow_0_r, Z.div_1_r.
  - exists (SpecFloat.iter_pos shr_1 p mrs). cbn [shr]. split; [reflexivity |].
    rewrite iter_pos_nat. split.
    + rewrite <- (positive_nat_Z p). now apply inbetween_shr_iter.
    + rewrite shr_iter_m by exact Hm. now rewrite positive_nat_Z.
Qed.

Lemma round_nearest_even_spec (mrs : shr_record) (x : Q) :
  Float.inbetween mrs x ->
  let mN := round_nearest_even (shr_m mrs) (loc_of_shr_record mrs) in
  shr_m mrs <= mN <= shr_m mrs + 1
  /\ (inject_Z mN - (1#2) <= x /\ x <= inject_Z mN + (1#2))%Q
  /\ ((x == inject_Z (shr_m mrs))%Q -> mN = shr_m mrs).
Proof.
  destruct mrs as [m r s]. unfold Float.inbetween. cbn [shr_m shr_r shr_s loc_of_shr_record].
  intros (H1 & H2 & H3 & H4).
  destruct r, s; cbn [round_nearest_even]; try destruct (Z.even m);
    try rewrite inject_Z_plus; change (inject_Z 1) with 1%Q;
    try (destruct H4 as [H4 | H4]);
    (split; [lia | split; [split; lra | intros E; try reflexivity; try lra]]).
Qed.

Lemma shr_m_of_loc (m : Z) (l : location) : shr_m (shr_record_of_loc m l) = m.
Proof. now destruct l as [| []]. Qed.

Lemma pow2_m53 : (Float.pow2 (-53) == 1 # 9007199254740992)%Q.
Proof. reflexivity. Qed.

(** The rounding of a value whose result is a normal number: one half
    of the last place, which is at most [2^-53] of the value. *)
Lemma binary_round_aux_normal (sx : bool) (mx : positive) (ex : Z) (lx : location) (x : Q) :
  Float.inbetween (shr_record_of_loc (Z.pos mx) lx) x ->
  53 <= Z.pos (digits2_pos mx) ->
  -1021 <= Z.pos (digits2_pos mx) + ex <= 1023 ->
  exists m e,
    binary_round_aux Float.prec Float.emax sx (Z.pos mx) ex lx = S754_finite sx m e
    /\ -1074 <= e
    /\ (inject_Z (Z.pos m) * Float.pow2 e - x * Float.pow2 ex <= Float.pow2 (-53) * (x * Float.pow2 ex)
        /\ x * Float.pow2 ex - inject_Z (Z.pos m) * Float.pow2 e <= Float.pow2 (-53) * (x * Float.pow2 ex))%Q.
Proof.
  intros Hx Hd Hrange.
  set (d := Z.pos (digits2_pos mx)) in *.
  set (n := d - 53). set (e1 := ex + n).
  pose proof (digits2_lower mx) as Hlo. pose proof (digits2_upper mx) as Hup.
  fold d in Hlo, Hup.
  assert (Hpn : 0 < 2 ^ n) by (apply Z.pow_pos_nonneg; lia).
  assert (Hlo' : 2 ^ 52 * 2 ^ n <= Z.pos mx).
  { rewrite <- Z.pow_add_r by lia. now replace (52 + n) with (d - 1) by lia. }
  assert (Hup' : Z.pos mx < 2 ^ 53 * 2 ^ n).
  { rewrite <- Z.pow_add_r by lia. now replace (53 + n) with d by lia. }
  unfold binary_round_aux, shr_fexp. cbn [Zdigits2]. fold d.
  replace (fexp Float.prec Float.emax (d + ex) - ex) with n
    by (unfold fexp, emin, Float.prec, Float.emax, n; lia).
  destruct (inbetween_shr (shr_record_of_loc (Z.pos mx) lx) ex n x)
    as (mrs1 & -> & Hy & Hm1); [rewrite shr_m_of_loc; lia | lia | exact Hx |].
  rewrite shr_m_of_loc in Hm1. fold e1.
  assert (Hm1b : 2 ^ 52 <= shr_m mrs1 < 2 ^ 53).
  { rewrite Hm1. split.
    - apply Z.div_le_lower_bound; lia.
    - apply Z.div_lt_upper_bound; lia. }
  set (y := (x * Float.pow2 (- n))%Q) in *.
  destruct (round_nearest_even_spec mrs1 y Hy) as (HmN & Hhalf & _).
  set (mN := round_nearest_even (shr_m mrs1) (loc_of_shr_record mrs1)) in *.
  assert (Hy52 : (inject_Z (2 ^ 52) <= y)%Q).
  { destruct Hy as (Hy1 & _). apply Qle_trans with (inject_Z (shr_m mrs1)); [| exact Hy1].
    rewrite <- Zle_Qle. lia. }
  assert (HX : (x * Float.pow2 ex == y * Float.pow2 e1)%Q).
  { unfold y, e1. rewrite <- Qmult_assoc, <- pow2_add.
    now replace (- n + (ex + n)) with ex by lia. }
  pose proof (pow2_pos e1) as HE1.
  assert (Herr : (inject_Z mN * Float.pow2 e1 - x * Float.pow2 ex <= Float.pow2 (-53) * (x * Float.pow2 ex)
                  /\ x * Float.pow2 ex - inject_Z mN * Float.pow2 e1 <= Float.pow2 (-53) * (x * Float.pow2 ex))%Q).
  { rewrite HX, pow2_m53. change (inject_Z (2 ^ 52)) with (4503599627370496 # 1)%Q in Hy52.
    destruct Hhalf as (Hh1 & Hh2).
    set (E := Float.pow2 e1) in *. set (M := inject_Z mN) in *.
    split; nra. }
  destruct (Z.eq_dec mN (2 ^ 53)) as [Hcarry | Hcarry].
  - rewrite Hcarry in *. change (Zdigits2 (2 ^ 53)) with 54.
    replace (fexp Float.prec Float.emax (54 + e1) - e1) with 1
      by (unfold fexp, emin, Float.prec, Float.emax, e1, n; lia).
    cbn [shr shr_record_of_loc SpecFloat.iter_pos]. cbn [shr_1 Z.pow Z.pow_pos Pos.iter Z.mul Pos.mul shr_m].
    replace (e1 + 1 <=? Float.emax - Float.prec) with true
      by (symmetry; apply Z.leb_le; unfold Float.emax, Float.prec, e1, n; lia).
    eexists _, _. split; [reflexivity | split; [unfold e1, n; lia |]].
    replace (e1 + 1) with (1 + e1) by lia. rewrite pow2_add.
    change (Float.pow2 1) with 2%Q.
    change (inject_Z (2 ^ 53)) with (9007199254740992 # 1)%Q in Herr.
    match goal with |- context [inject_Z (Z.pos ?q)] =>
      change (inject_Z (Z.pos q)) with (4503599627370496 # 1)%Q end.
    destruct Herr. split; lra.
  - destruct mN as [| q | q] eqn:EmN; try lia.
    assert (Hdq : Zdigits2 (Z.pos q) = 53).
    { cbn [Zdigits2]. apply digits2_unique. lia. }
    rewrite Hdq.
    replace (fexp Float.prec Float.emax (53 + e1) - e1) with 0
      by (unfold fexp, emin, Float.prec, Float.emax, e1, n; lia).
    cbn [shr shr_record_of_loc shr_m].
    replace (e1 <=? Float.emax - Float.prec) with true
      by (symmetry; apply Z.leb_le; unfold Float.emax, Float.prec, e1, n; lia).
    exists q, e1. split; [reflexivity | split; [unfold e1, n; lia | exact Herr]].
Qed.

(** A mantissa that already sits at its exponent is kept as it is. *)
Lemma binary_round_aux_canonical (sx : bool) (mx : positive) (ex : Z) :
  fexp Float.prec Float.emax (Z.pos (digits2_pos mx) + ex) = ex ->
  ex <= 971 ->
  binary_round_aux Float.prec Float.emax sx (Z.pos mx) ex loc_Exact = S754_finite sx mx ex.
Proof.
  intros Hf He. unfold binary_round_aux, shr_fexp. cbn [Zdigits2].
  rewrite Hf, Z.sub_diag. cbn [shr shr_record_of_loc shr_m loc_of_shr_record round_nearest_even].
  cbn [Zdigits2]. rewrite Hf, Z.sub_diag. cbn [shr shr_m].
  replace (ex <=? Float.emax - Float.prec) with true; [reflexivity |].
  symmetry. apply Z.leb_le. unfold Float.emax, Float.prec. lia.
Qed.

Lemma iter_xO_value (m k : positive) : Z.pos (Pos.iter xO m k) = Z.pos m * 2 ^ Z.pos k.
Proof.
  induction k as [| k IH] using Pos.peano_ind.
  - cbn [Pos.iter]. lia.
  - rewrite Pos.iter_succ, Pos2Z.inj_xO, IH, Pos2Z.inj_succ, Z.pow_succ_r by lia. lia.
Qed.

Lemma shl_align_value (mx : positive) (ex ez : Z) :
  ez <= ex -> Z.pos (fst (shl_align mx ex ez)) = Z.pos mx * 2 ^ (ex - ez).
Proof.
  intros H. unfold shl_align. destruct (ez - ex) as [| d | d] eqn:E; try lia; cbn [fst].
  - replace (ex - ez) with 0 by lia. lia.
  - rewrite iter_xO_value. f_equal. f_equal. lia.
Qed.

(** The rounding of an integer mantissa at an exponent not below the
    least one: exact as long as the mantissa fits, and within [2^-53]
    of the value otherwise. *)
Lemma binary_round_spec (sx : bool) (M : positive) (ez : Z) :
  -1074 <= ez ->
  Z.pos (digits2_pos M) + ez <= 1023 ->
  exists m e,
    binary_round Float.prec Float.emax sx M ez = S754_finite sx m e
    /\ -1074 <= e
    /\ (inject_Z (Z.pos m) * Float.pow2 e - inject_Z (Z.pos M) * Float.pow2 ez
        <= Float.pow2 (-53) * (inject_Z (Z.pos M) * Float.pow2 ez)
        /\ inject_Z (Z.pos M) * Float.pow2 ez - inject_Z (Z.pos m) * Float.pow2 e
           <= Float.pow2 (-53) * (inject_Z (Z.pos M) * Float.pow2 ez))%Q
    /\ (Z.pos (digits2_pos M) <= 53 ->
        (inject_Z (Z.pos m) * Float.pow2 e == inject_Z (Z.pos M) * Float.pow2 ez)%Q).
Proof.
  intros Hez Hd. set (d := Z.pos (digits2_pos M)) in *.
  assert (HX : (0 < inject_Z (Z.pos M) * Float.pow2 ez)%Q).
  { apply Qmult_lt_0_compat; [| apply pow2_pos]. now rewrite <- (Zlt_Qlt 0). }
  assert (Hexact : forall m e,
             (inject_Z (Z.pos m) * Float.pow2 e == inject_Z (Z.pos M) * Float.pow2 ez)%Q ->
             (inject_Z (Z.pos m) * Float.pow2 e - inject_Z (Z.pos M) * Float.pow2 ez
              <= Float.pow2 (-53) * (inject_Z (Z.pos M) * Float.pow2 ez)
              /\ inject_Z (Z.pos M) * Float.pow2 ez - inject_Z (Z.pos m) * Float.pow2 e
                 <= Float.pow2 (-53) * (inject_Z (Z.pos M) * Float.pow2 ez))%Q).
  { intros m e E. rewrite E, pow2_m53. split; lra. }
  unfold binary_round, shl_align. fold d.
  set (f := fexp Float.prec Float.emax (d + ez)).
  assert (Hf : f = Z.max (d + ez - 53) (-1074))
    by (unfold f, fexp, emin, Float.prec, Float.emax; lia).
  destruct (f - ez) as [| k | k] eqn:Ek.
  - exists M, ez. rewrite binary_round_aux_canonical by (fold d; fold f; lia).
    split; [reflexivity | split; [lia | split; [apply Hexact |]]]; reflexivity.
  - destruct (binary_round_aux_normal sx M ez loc_Exact (inject_Z (Z.pos M)))
      as (m & e & -> & He & Herr).
    + unfold Float.inbetween. cbn [shr_record_of_loc shr_m shr_r shr_s]. solve_inbetween.
    + fold d. lia.
    + fold d. lia.
    + exists m, e. split; [reflexivity | split; [exact He | split; [exact Herr |]]].
      intros Hd53. exfalso. lia.
  - exists (Pos.iter xO M k), f.
    rewrite binary_round_aux_canonical.
    + assert (E : (inject_Z (Z.pos (Pos.iter xO M k)) * Float.pow2 f
                   == inject_Z (Z.pos M) * Float.pow2 ez)%Q).
      { rewrite iter_xO_value, inject_Z_mult, <- (pow2_Z (Z.pos k)) by lia.
        rewrite <- Qmult_assoc, <- pow2_add. now replace (Z.pos k + f) with ez by lia. }
      split; [reflexivity | split; [lia | split; [now apply Hexact | now intros _]]].
    + rewrite digits2_shift. fold d. replace (d + Z.pos k + f) with (d + ez) by lia.
      reflexivity.
    + lia.
Qed.

Lemma inject_pos_lower (p : positive) :
  (Float.pow2 (Z.pos (digits2_pos p) - 1) <= inject_Z (Z.pos p))%Q.
Proof. rewrite pow2_Z by lia. rewrite <- Zle_Qle. apply digits2_lower. Qed.

Lemma inject_pos_upper (p : positive) :
  (inject_Z (Z.pos p) < Float.pow2 (Z.pos (digits2_pos p)))%Q.
Proof. rewrite pow2_Z by lia. rewrite <- Zlt_Qlt. apply digits2_upper. Qed.

Lemma digits_below (p : positive) (e b : Z) :
  (inject_Z (Z.pos p) * Float.pow2 e < Float.pow2 b)%Q -> Z.pos (digits2_pos p) + e <= b.
Proof.
  intros H. pose proof (inject_pos_lower p) as Hl. pose proof (pow2_pos e) as He.
  assert (Hlt : (Float.pow2 (Z.pos (digits2_pos p) - 1 + e) < Float.pow2 b)%Q).
  { rewrite pow2_add. eapply Qle_lt_trans; [| exact H].
    apply Qmult_le_compat_r; [exact Hl | lra]. }
  apply pow2_lt_inv in Hlt. lia.
Qed.

Lemma digits_above (p : positive) (e b : Z) :
  (Float.pow2 b <= inject_Z (Z.pos p) * Float.pow2 e)%Q -> b < Z.pos (digits2_pos p) + e.
Proof.
  intros H. pose proof (inject_pos_upper p) as Hu. pose proof (pow2_pos e) as He.
  assert (Hlt : (Float.pow2 b < Float.pow2 (Z.pos (digits2_pos p) + e))%Q).
  { rewrite pow2_add. eapply Qle_lt_trans; [exact H |].
    apply Qmult_lt_compat_r; [exact He | exact Hu]. }
  now apply pow2_lt_inv in Hlt.
Qed.

(** The sum of two finite floats of one sign, short of an overflow, is
    within [2^-53] of the sum of their values. *)
Lemma add_same_sign (s : bool) (mx my : positive) (ex ey : Z) :
  -1074 <= ex -> -1074 <= ey ->
  (inject_Z (Z.pos mx) * Float.pow2 ex + inject_Z (Z.pos my) * Float.pow2 ey < Float.pow2 1023)%Q ->
  exists m e,
    Float.add (S754_finite s mx ex) (S754_finite s my ey) = S754_finite s m e
    /\ -1074 <= e
    /\ (inject_Z (Z.pos m) * Float.pow2 e
        - (inject_Z (Z.pos mx) * Float.pow2 ex + inject_Z (Z.pos my) * Float.pow2 ey)
        <= Float.pow2 (-53) * (inject_Z (Z.pos mx) * Float.pow2 ex + inject_Z (Z.pos my) * Float.pow2 ey)
        /\ (inject_Z (Z.pos mx) * Float.pow2 ex + inject_Z (Z.pos my) * Float.pow2 ey)
           - inject_Z (Z.pos m) * Float.pow2 e
           <= Float.pow2 (-53) * (inject_Z (Z.pos mx) * Float.pow2 ex + inject_Z (Z.pos my) * Float.pow2 ey))%Q.
Proof.
  intros Hex Hey Hsum.
  set (ez := Z.min ex ey).
  set (a := fst (shl_align mx ex ez)). set (b := fst (shl_align my ey ez)).
  pose proof (shl_align_value mx ex ez ltac:(lia)) as Ha. fold a in Ha.
  pose proof (shl_align_value my ey ez ltac:(lia)) as Hb. fold b in Hb.
  assert (HM : (inject_Z (Z.pos (a + b)) * Float.pow2 ez
                == inject_Z (Z.pos mx) * Float.pow2 ex + inject_Z (Z.pos my) * Float.pow2 ey)%Q).
  { rewrite Pos2Z.inj_add, inject_Z_plus, Ha, Hb, !inject_Z_mult.
    rewrite <- !pow2_Z by lia.
    rewrite <- (pow2_sub ex ez), <- (pow2_sub ey ez). ring. }
  assert (Hd : Z.pos (digits2_pos (a + b)) + ez <= 1023).
  { apply digits_below. now rewrite HM. }
  destruct (binary_round_spec s (a + b) ez ltac:(lia) Hd) as (m & e & Hr & He & Herr & _).
  exists m, e. split; [| split; [exact He | now rewrite <- HM]].
  unfold Float.add, SFadd. fold ez. fold a. fold b.
  destruct s; cbn [cond_Zopp Z.opp Z.add binary_normalize]; exact Hr.
Qed.

Lemma new_location_spec (d r q : Z) (x : Q) :
  0 < d -> 0 <= r < d ->
  (x * inject_Z d == inject_Z q * inject_Z d + inject_Z r)%Q ->
  Float.inbetween (shr_record_of_loc q (new_location d r)) x.
Proof.
  intros Hd Hr Hx.
  assert (HD : (0 < inject_Z d)%Q) by now rewrite <- (Zlt_Qlt 0).
  assert (HR0 : (0 <= inject_Z r)%Q) by (rewrite <- (Zle_Qle 0); lia).
  assert (HR1 : (inject_Z r < inject_Z d)%Q) by (rewrite <- Zlt_Qlt; lia).
  assert (Hcmp : (r = 0 /\ new_location d r = loc_Exact)
                 \/ (0 < r /\ 2 * r < d /\ new_location d r = loc_Inexact Lt)
                 \/ (2 * r = d /\ new_location d r = loc_Inexact Eq)
                 \/ (d < 2 * r /\ new_location d r = loc_Inexact Gt)).
  { unfold new_location. destruct (Z.even d) eqn:Ev.
    - unfold new_location_even. destruct (Z.eqb_spec r 0) as [-> | Hr0]; [now left | right].
      destruct (Z.compare_spec (2 * r) d); [right; left | left | right; right];
        repeat split; try reflexivity; lia.
    - unfold new_location_odd. destruct (Z.eqb_spec r 0) as [-> | Hr0]; [now left | right].
      assert (Ho : Z.odd d = true) by now rewrite <- Z.negb_even, Ev.
      apply Z.odd_spec in Ho. destruct Ho as [k Hk].
      destruct (Z.compare_spec (2 * r + 1) d); [left | left | right; right];
        repeat split; try reflexivity; lia. }
  set (D := inject_Z d) in *. set (R := inject_Z r) in *. set (Q0 := inject_Z q) in *.
  unfold Float.inbetween.
  destruct Hcmp as [(E & ->) | [(H0 & H2 & ->) | [(H2 & ->) | (H2 & ->)]]];
    cbn [shr_record_of_loc shr_m shr_r shr_s]; fold Q0.
  - assert (R == 0)%Q by (unfold R; now rewrite E).
    assert (x == Q0)%Q by nra. solve_inbetween.
  - assert (0 < R)%Q by (unfold R; rewrite <- (Zlt_Qlt 0); lia).
    assert (2 * R < D)%Q.
    { unfold R, D. change 2%Q with (inject_Z 2). rewrite <- inject_Z_mult, <- Zlt_Qlt. lia. }
    assert (Q0 < x)%Q by nra. assert (x < Q0 + (1#2))%Q by nra. solve_inbetween.
  - assert (2 * R == D)%Q.
    { unfold R, D. change 2%Q with (inject_Z 2). rewrite <- inject_Z_mult. now rewrite H2. }
    assert (x == Q0 + (1#2))%Q by nra. solve_inbetween.
  - assert (D < 2 * R)%Q.
    { unfold R, D. change 2%Q with (inject_Z 2). rewrite <- inject_Z_mult, <- Zlt_Qlt. lia. }
    assert (Q0 + (1#2) < x)%Q by nra. assert (x < Q0 + 1)%Q by nra. solve_inbetween.
Qed.

(** The quotient of two finite floats, when it is a normal number, is
    within [2^-53] of the quotient of their values. *)
Lemma div_normal (sx sy : bool) (mx my : positive) (ex ey : Z) (V : Q) :
  (V * (inject_Z (Z.pos my) * Float.pow2 ey) == inject_Z (Z.pos mx) * Float.pow2 ex)%Q ->
  (Float.pow2 (-1022) <= V)%Q -> (V < Float.pow2 1023)%Q ->
  exists m e,
    Float.div (S754_finite sx mx ex) (S754_finite sy my ey) = S754_finite (xorb sx sy) m e
    /\ -1074 <= e
    /\ (inject_Z (Z.pos m) * Float.pow2 e - V <= Float.pow2 (-53) * V
        /\ V - inject_Z (Z.pos m) * Float.pow2 e <= Float.pow2 (-53) * V)%Q.
Proof.
  intros HV Hlow Hhigh.
  set (d1 := Z.pos (digits2_pos mx)). set (d2 := Z.pos (digits2_pos my)).
  set (D := d1 + ex - (d2 + ey)).
  set (e' := Z.min (fexp Float.prec Float.emax D) (ex - ey)).
  set (s := ex - ey - e').
  assert (Hs : 0 <= s) by (unfold s, e'; lia).
  assert (He' : e' <= Z.max (D - 53) (-1074))
    by (unfold e', fexp, emin, Float.prec, Float.emax; lia).
  set (A := inject_Z (Z.pos mx)) in *. set (B := inject_Z (Z.pos my)) in *.
  assert (HA : (0 < A)%Q) by (unfold A; now rewrite <- (Zlt_Qlt 0)).
  assert (HB : (0 < B)%Q) by (unfold B; now rewrite <- (Zlt_Qlt 0)).
  pose proof (pow2_pos ex) as Hpex. pose proof (pow2_pos ey) as Hpey.
  pose proof (pow2_pos e') as Hpe'. pose proof (pow2_pos (- e')) as Hpne'.
  (* the scaled quotient *)
  set (x := (V * Float.pow2 (- e'))%Q).
  assert (Hxe : (x * Float.pow2 e' == V)%Q).
  { unfold x. rewrite <- Qmult_assoc, <- pow2_add.
    replace (- e' + e') with 0 by lia. change (Float.pow2 0) with 1%Q. ring. }
  assert (HxB : (x * B == A * Float.pow2 s)%Q).
  { assert (E1 : (Float.pow2 s * Float.pow2 e' * Float.pow2 ey == Float.pow2 ex)%Q).
    { rewrite <- !pow2_add. now replace (s + e' + ey) with ex by (unfold s; lia). }
    assert (E2 : (x * B * (Float.pow2 e' * Float.pow2 ey) == A * Float.pow2 s * (Float.pow2 e' * Float.pow2 ey))%Q).
    { transitivity (V * (B * Float.pow2 ey))%Q; [rewrite <- Hxe; ring |].
      rewrite HV, <- E1. ring. }
    apply (Qmult_inj_r _ _ (Float.pow2 e' * Float.pow2 ey)); [| exact E2].
    assert (0 < Float.pow2 e' * Float.pow2 ey)%Q by (apply Qmult_lt_0_compat; assumption). lra. }
  (* the quotient is at least 2^52 *)
  assert (HVD : (Float.pow2 (D - 1) < V)%Q).
  { pose proof (inject_pos_lower mx) as Hl. pose proof (inject_pos_upper my) as Hu.
    fold A d1 in Hl. fold B d2 in Hu.
    assert (E : (Float.pow2 (D - 1) * Float.pow2 (d2 + ey) == Float.pow2 (d1 - 1) * Float.pow2 ex)%Q).
    { rewrite <- !pow2_add. now replace (D - 1 + (d2 + ey)) with (d1 - 1 + ex) by (unfold D; lia). }
    rewrite pow2_add in E.
    pose proof (pow2_pos (D - 1)) as HpD. pose proof (pow2_pos d2) as Hpd2.
    pose proof (pow2_pos (d1 - 1)) as Hpd1.
    assert (0 < V)%Q by (pose proof (pow2_pos (-1022)); lra).
    destruct (Qlt_le_dec (Float.pow2 (D - 1)) V) as [Hlt | Hge]; [exact Hlt | exfalso].
    assert (V * (B * Float.pow2 ey) < Float.pow2 (D - 1) * (Float.pow2 d2 * Float.pow2 ey))%Q.
    { apply Qle_lt_trans with (Float.pow2 (D - 1) * (B * Float.pow2 ey))%Q.
      - apply Qmult_le_compat_r; [exact Hge |].
        apply Qlt_le_weak, Qmult_lt_0_compat; assumption.
      - apply Qmult_lt_l; [exact HpD |]. apply Qmult_lt_compat_r; assumption. }
    assert (Float.pow2 (d1 - 1) * Float.pow2 ex <= A * Float.pow2 ex)%Q
      by (apply Qmult_le_compat_r; [exact Hl | lra]).
    lra. }
  assert (Hx52 : (Float.pow2 52 <= x)%Q).
  { unfold x.
    assert (Hc : (Float.pow2 (52 + e') <= V)%Q).
    { destruct (Z.le_gt_cases (52 + e') (D - 1)) as [H | H].
      - apply Qlt_le_weak. eapply Qle_lt_trans; [apply pow2_le; exact H | exact HVD].
      - eapply Qle_trans; [apply pow2_le | exact Hlow]. lia. }
    rewrite pow2_add in Hc.
    assert (E : (Float.pow2 e' * Float.pow2 (- e') == 1)%Q).
    { rewrite <- pow2_add. now replace (e' + - e') with 0 by lia. }
    assert (Float.pow2 52 * Float.pow2 e' * Float.pow2 (- e') <= V * Float.pow2 (- e'))%Q
      by (apply Qmult_le_compat_r; [exact Hc | lra]).
    assert (Float.pow2 52 * Float.pow2 e' * Float.pow2 (- e') == Float.pow2 52)%Q by (rewrite <- Qmult_assoc, E; ring).
    lra. }
  (* the division of the mantissas *)
  unfold Float.div, SFdiv, SFdiv_core_binary. cbn [Zdigits2].
  fold d1 d2 D e' s.
  assert (Hm' : match s with
                | 0 => Z.pos mx
                | Z.pos _ => Z.shiftl (Z.pos mx) s
                | Z.neg _ => 0
                end = Z.pos mx * 2 ^ s).
  { destruct s as [| p | p] eqn:Es; [lia | | lia].
    now rewrite Z.shiftl_mul_pow2 by lia. }
  rewrite Hm'.
  pose proof (Z_div_mod (Z.pos mx * 2 ^ s) (Z.pos my) ltac:(lia)) as Hdm.
  destruct (Z.div_eucl (Z.pos mx * 2 ^ s) (Z.pos my)) as [q r].
  destruct Hdm as (Hqr & Hr).
  assert (HxQ : (x * B == inject_Z q * B + inject_Z r)%Q).
  { rewrite HxB. unfold A, B. rewrite (pow2_Z s Hs), <- !inject_Z_mult, <- inject_Z_plus.
    rewrite Hqr, (Z.mul_comm (Z.pos my) q). reflexivity. }
  pose proof (new_location_spec (Z.pos my) r q x ltac:(lia) Hr HxQ) as Hloc.
  assert (Hq52 : 2 ^ 52 <= q).
  { destruct Hloc as (_ & Hup & _). rewrite shr_m_of_loc in Hup.
    rewrite (pow2_Z 52) in Hx52 by lia.
    assert (Hlt : (inject_Z (2 ^ 52) < inject_Z (q + 1))%Q)
      by (rewrite inject_Z_plus; change (inject_Z 1) with 1%Q; lra).
    rewrite <- Zlt_Qlt in Hlt. lia. }
  destruct q as [| qp | qp]; try lia.
  assert (Hq_le : (inject_Z (Z.pos qp) * Float.pow2 e' <= V)%Q).
  { destruct Hloc as (Hlo & _). rewrite shr_m_of_loc in Hlo. rewrite <- Hxe.
    apply Qmult_le_compat_r; [exact Hlo | lra]. }
  assert (Hq_gt : (V < inject_Z (Z.pos qp + 1) * Float.pow2 e')%Q).
  { destruct Hloc as (_ & Hup & _). rewrite shr_m_of_loc in Hup. rewrite <- Hxe.
    rewrite inject_Z_plus. change (inject_Z 1) with 1%Q.
    apply Qmult_lt_compat_r; [exact Hpe' | exact Hup]. }
  pose proof (digits2_upper qp) as Hqu.
  assert (Hdq53 : 53 <= Z.pos (digits2_pos qp)).
  { destruct (Z.le_gt_cases 53 (Z.pos (digits2_pos qp))) as [H | H]; [exact H | exfalso].
    assert (2 ^ Z.pos (digits2_pos qp) <= 2 ^ 52) by (apply Z.pow_le_mono_r; lia). lia. }
  assert (Hdq_hi : Z.pos (digits2_pos qp) + e' <= 1023).
  { apply digits_below. lra. }
  assert (Hdq_lo : -1021 <= Z.pos (digits2_pos qp) + e').
  { assert (Hlt : (Float.pow2 (-1022) < Float.pow2 (Z.pos (digits2_pos qp) + e'))%Q).
    { rewrite pow2_add. eapply Qle_lt_trans; [exact Hlow |].
      eapply Qlt_le_trans; [exact Hq_gt |].
      apply Qmult_le_compat_r; [| lra].
      rewrite pow2_Z by lia. rewrite <- Zle_Qle. lia. }
    apply pow2_lt_inv in Hlt. lia. }
  destruct (binary_round_aux_normal (xorb sx sy) qp e' (new_location (Z.pos my) r) x
              Hloc Hdq53 (conj Hdq_lo Hdq_hi)) as (m & e & Hr' & He & Herr).
  exists m, e. split; [exact Hr' | split; [exact He |]].
  now rewrite Hxe in Herr.
Qed.

(** An integer below [2^53] converts to the float of its own value. *)
Lemma of_Z_value (n : Z) :
  0 < n < 2 ^ 53 ->
  exists m e,
    Float.of_Z n = S754_finite false m e
    /\ (inject_Z (Z.pos m) * Float.pow2 e == inject_Z n)%Q.
Proof.
  intros [Hn Hb]. destruct n as [| p | p]; try lia.
  assert (Hd : Z.pos (digits2_pos p) <= 53).
  { destruct (Z.le_gt_cases (Z.pos (digits2_pos p)) 53) as [H | H]; [exact H | exfalso].
    pose proof (digits2_lower p) as Hl.
    assert (2 ^ 53 <= 2 ^ (Z.pos (digits2_pos p) - 1)) by (apply Z.pow_le_mono_r; lia).
    lia. }
  destruct (binary_round_spec false p 0 ltac:(lia) ltac:(lia)) as (m & e & Hr & _ & _ & Hex).
  exists m, e. split; [exact Hr |]. rewrite (Hex Hd). change (Float.pow2 0) with 1%Q. ring.
Qed.

Section RepeatedSum.

Variables (s : bool) (mx : positive) (ex : Z) (n : nat).

Let x : Float.float := S754_finite s mx ex.
Let a : Q := (inject_Z (Z.pos mx) * Float.pow2 ex)%Q.
Let N : Q := (inject_Z (Z.of_nat n) * a)%Q.
Let eps : Q := ((1 # 4503599627370496) * N)%Q.

Hypothesis exponent : -1074 <= ex.
Hypothesis count : Z.of_nat n <= 2 ^ 52.
Hypothesis size : (N <= Float.pow2 1021)%Q.

(** After [j] additions the sum is within [j * eps] of [j] times the
    item. *)
Let near (j : nat) (S : Q) : Prop :=
  (inject_Z (Z.of_nat j) * a - inject_Z (Z.of_nat j) * eps <= S
   /\ S <= inject_Z (Z.of_nat j) * a + inject_Z (Z.of_nat j) * eps)%Q.

Lemma item_positive : (0 < a)%Q.
Proof.
  unfold a. apply Qmult_lt_0_compat; [| apply pow2_pos]. now rewrite <- (Zlt_Qlt 0).
Qed.

Lemma fold_add_repeat (k j : nat) (m : positive) (e : Z) :
  (1 <= j)%nat -> (j + k <= n)%nat ->
  -1074 <= e ->
  near j (inject_Z (Z.pos m) * Float.pow2 e) ->
  exists m' e',
    fold_left Float.add (repeat x k) (S754_finite s m e) = S754_finite s m' e'
    /\ -1074 <= e'
    /\ near (j + k) (inject_Z (Z.pos m') * Float.pow2 e').
Proof.
  revert j m e. induction k as [| k IH]; intros j m e Hj Hjk He Hnear.
  - exists m, e. cbn [repeat fold_left]. rewrite Nat.add_0_r. auto.
  - cbn [repeat fold_left].
    pose proof item_positive as Ha.
    set (jQ := inject_Z (Z.of_nat j)) in *.
    set (nQ := inject_Z (Z.of_nat n)) in *.
    set (S0 := (inject_Z (Z.pos m) * Float.pow2 e)%Q) in *.
    assert (Hj1 : (1 <= jQ)%Q) by (unfold jQ; rewrite <- (Zle_Qle 1); lia).
    assert (Hjn : (jQ + 1 <= nQ)%Q).
    { unfold jQ, nQ. change 1%Q with (inject_Z 1). rewrite <- inject_Z_plus, <- Zle_Qle. lia. }
    assert (Hn52 : (nQ <= 4503599627370496)%Q).
    { unfold nQ. change (4503599627370496)%Q with (inject_Z (2 ^ 52)). now rewrite <- Zle_Qle. }
    assert (HN : (N == nQ * a)%Q) by reflexivity.
    assert (Heps : (eps == (1 # 4503599627370496) * N)%Q) by reflexivity.
    assert (F1 : (jQ * a + a <= N)%Q) by (rewrite HN; nra).
    assert (HN0 : (0 <= N)%Q) by (rewrite HN; nra).
    assert (F2 : (jQ * eps <= N)%Q) by (rewrite Heps; nra).
    assert (F3 : (0 <= jQ * eps)%Q) by (rewrite Heps; nra).
    destruct Hnear as (Hlo & Hhi). fold jQ in Hlo, Hhi.
    assert (Hp : (2 * Float.pow2 1021 < Float.pow2 1023)%Q).
    { change 2%Q with (Float.pow2 1). rewrite <- pow2_add. now apply pow2_lt. }
    destruct (add_same_sign s m mx e ex He exponent) as (m1 & e1 & Hadd & He1 & Herr).
    { fold S0. fold a. lra. }
    fold S0 in Herr. fold a in Herr. rewrite pow2_m53 in Herr. destruct Herr as (Herr1 & Herr2).
    replace (Float.add (S754_finite s m e) x) with (S754_finite s m1 e1)
      by (symmetry; exact Hadd).
    destruct (IH (S j) m1 e1 ltac:(lia) ltac:(lia) He1) as (m' & e' & Hfold & He' & Hnear').
    + unfold near. rewrite Nat2Z.inj_succ. unfold Z.succ. rewrite inject_Z_plus.
      fold jQ. change (inject_Z 1) with 1%Q.
      set (S1 := (inject_Z (Z.pos m1) * Float.pow2 e1)%Q) in *.
      set (Ja := (jQ * a)%Q) in *. set (Je := (jQ * eps)%Q) in *.
      assert (E1 : ((jQ + 1) * a == Ja + a)%Q) by (unfold Ja; ring).
      assert (E2 : ((jQ + 1) * eps == Je + eps)%Q) by (unfold Je; ring).
      rewrite E1, E2. split; lra.
    + exists m', e'. split; [exact Hfold | split; [exact He' |]].
      now replace (j + S k)%nat with (S j + k)%nat by lia.
Qed.

(** The float sum of [n] equal items is within [n * 2^-52] of [n] times
    the item. *)
Lemma sum_repeat_near :
  (1 <= n)%nat ->
  exists m' e',
    Float.sum (repeat x n) = S754_finite s m' e'
    /\ (N - inject_Z (Z.of_nat n) * eps <= inject_Z (Z.pos m') * Float.pow2 e'
        /\ inject_Z (Z.pos m') * Float.pow2 e' <= N + inject_Z (Z.of_nat n) * eps)%Q.
Proof.
  intros Hn.
  assert (En : exists n', n = S n') by (exists (pred n); lia).
  destruct En as [n' En].
  replace (repeat x n) with (x :: repeat x n') by (rewrite En; reflexivity).
  unfold Float.sum. cbn [fold_left].
  change (Float.add Float.zero x) with x. unfold x at 2.
  pose proof item_positive as Ha.
  destruct (fold_add_repeat n' 1 mx ex ltac:(lia) ltac:(lia) exponent) as (m' & e' & Hf & _ & Hnear).
  - unfold near. fold a. change (inject_Z (Z.of_nat 1)) with 1%Q.
    assert (0 <= eps)%Q.
    { unfold eps, N. assert (0 <= inject_Z (Z.of_nat n))%Q by (rewrite <- (Zle_Qle 0); lia).
      nra. }
    split; lra.
  - exists m', e'. split; [exact Hf |].
    replace (1 + n')%nat with n in Hnear by lia. exact Hnear.
Qed.

End RepeatedSum.

(** ** Guarded ratios *)

Section GuardedRatio.

Import Features.

Variables a b : Float.float.

(** Every ratio of the table has the shape [0.0 if b <= 0 else a / b]:
    its division is never reached with a zero divisor. *)
Lemma guarded_ratios_return :
  returns (cap_rate a b) /\ returns (dscr a b) /\ returns (equity_multiple a b)
  /\ returns (yield_on_cost a b) /\ returns (ltv a b) /\ returns (cltv a b)
  /\ returns (dti a b) /\ returns (far a b) /\ returns (coverage_ratio a b)
  /\ returns (water_intensity_m3_per_m2_year a b) /\ returns (value_from_cap a b).
Proof.
  unfold cap_rate, dscr, equity_multiple, yield_on_cost, ltv, cltv, dti, far,
    coverage_ratio, water_intensity_m3_per_m2_year, value_from_cap, returns.
  destruct (Float.leb b Float.zero) eqn:E.
  - repeat split; eexists; reflexivity.
  - rewrite (truediv_guarded a b E). repeat split; eexists; reflexivity.
Qed.

Lemma deductible_effect_expected_cost_returns :
  forall c, returns (deductible_effect_expected_cost a b c).
Proof.
  intros c. unfold deductible_effect_expected_cost, returns.
  destruct (Float.leb c Float.zero) eqn:E; [eauto |].
  rewrite (truediv_guarded a c E). cbn [bind]. eauto.
Qed.

(** A ratio over a count converts the count first, which overflows for
    a count beyond the floats, but it does not divide by zero. *)
Lemma count_ratios_no_zero_division :
  forall n, mttr a n <> Raise ZeroDivisionError /\ opex_per_unit a n <> Raise ZeroDivisionError.
Proof.
  intros n. unfold mttr, opex_per_unit, Float.truediv_int, Float.truediv.
  destruct (Z.leb_spec n 0) as [Hn | Hn]; [split; discriminate |].
  destruct (Float.of_int n) as [f | e] eqn:E; cbn [bind].
  - rewrite (of_int_nonzero n f) by (lia || assumption). split; discriminate.
  - unfold Float.of_int in E. destruct (Float.of_Z n); inversion E; split; discriminate.
Qed.

End GuardedRatio.

Lemma value_from_cap_value (noi_annual market_cap_rate : Float.float) :
  Features.value_from_cap noi_annual market_cap_rate
  = Ok (if Float.leb market_cap_rate Float.zero then Float.inf
        else Float.div noi_annual market_cap_rate).
Proof.
  unfold Features.value_from_cap.
  destruct (Float.leb market_cap_rate Float.zero) eqn:E; [reflexivity |].
  now apply truediv_guarded.
Qed.

Lemma ltv_value (current_loan_balance property_value : Float.float) :
  Features.ltv current_loan_balance property_value
  = Ok (if Float.leb property_value Float.zero then Float.zero
        else Float.div current_loan_balance property_value).
Proof.
  unfold Features.ltv.
  destruct (Float.leb property_value Float.zero) eqn:E; [reflexivity |].
  now apply truediv_guarded.
Qed.

(** C3. [value_from_cap] returns +infinity when the cap rate is [<= 0] and
    the quotient [noi_annual / market_cap_rate] otherwise; it never raises. *)
Theorem value_from_cap_spec (noi_annual market_cap_rate : Float.float) :
  Features.value_from_cap noi_annual market_cap_rate
  = Ok (if Float.leb market_cap_rate Float.zero then Float.inf
        else Float.div noi_annual market_cap_rate).
Proof. apply value_from_cap_value. Qed.

(** C2. At [distance_m = -1.0] and [threshold_m = 0.0] the hazard score
    divides by zero: [simple_hazard_distance_score] raises
    [ZeroDivisionError], where every ratio of the table returns its
    sentinel. *)
Theorem simple_hazard_distance_score_raises :
  Features.simple_hazard_distance_score (Float.of_Z (-1)) Float.zero
  = Raise ZeroDivisionError.
Proof. reflexivity. Qed.

(** The same for every distance that is not [>= 0], a NaN included, and
    both zeros as threshold. *)
Lemma simple_hazard_distance_score_zero_threshold (distance_m threshold_m : Float.float) :
  Float.is_zero threshold_m = true ->
  Float.geb distance_m threshold_m = false ->
  Features.simple_hazard_distance_score distance_m threshold_m = Raise ZeroDivisionError.
Proof.
  intros Hz Hd. unfold Features.simple_hazard_distance_score, Float.truediv.
  now rewrite Hd, Hz.
Qed.

(** ** Rent roll *)

Lemma rents_of_active_filter (leases : list Models.Lease.t) :
  Features.rents_of_active leases
  = map Models.Lease.rent_monthly (List.filter Spec.is_active leases).
Proof.
  induction leases as [| l ls IH]; [reflexivity |].
  cbn [Features.rents_of_active List.filter]. unfold Spec.is_active at 1.
  destruct (String.eqb (Models.Lease.status l) "active"); cbn [map]; now rewrite IH.
Qed.

Lemma rents_of_active_app (ls1 ls2 : list Models.Lease.t) :
  Features.rents_of_active (ls1 ++ ls2)
  = Features.rents_of_active ls1 ++ Features.rents_of_active ls2.
Proof.
  rewrite !rents_of_active_filter, List.filter_app. apply map_app.
Qed.

(** C4. [rent_roll_total] is the sum of [rent_monthly] over the leases
    whose status is the string [active]: a lease of any other status
    contributes nothing wherever it stands in the list, and the result
    depends on the rents and statuses only, not on the date windows. *)
Theorem rent_roll_total_spec :
  (forall leases, Features.rent_roll_total leases = Spec.active_rent_sum leases)
  /\ (forall before l after,
        Models.Lease.status l <> "active"%string ->
        Features.rent_roll_total (before ++ l :: after)
        = Features.rent_roll_total (before ++ after))
  /\ (forall leases leases',
        Forall2 Spec.same_rent_and_status leases leases' ->
        Features.rent_roll_total leases = Features.rent_roll_total leases').
Proof.
  split; [| split].
  - intros leases. unfold Features.rent_roll_total, Spec.active_rent_sum.
    now rewrite rents_of_active_filter.
  - intros before l after Hl. unfold Features.rent_roll_total.
    rewrite !rents_of_active_app. cbn [Features.rents_of_active].
    apply String.eqb_neq in Hl. now rewrite Hl.
  - intros leases leases' H. unfold Features.rent_roll_total. f_equal.
    induction H as [| l l' ls ls' [Hr Hs] _ IH]; [reflexivity |].
    cbn [Features.rents_of_active]. now rewrite Hr, Hs, IH.
Qed.

(** ** Occupancy *)

Lemma unit_id_set_list (units : list Models.Unit.t) :
  Features.unit_id_set units = list_to_set (map Models.Unit.id units).
Proof. induction units as [| u us IH]; [reflexivity |]. cbn. now rewrite IH. Qed.

Lemma elem_of_occupied_units (leases : list Models.Lease.t) (i : Models.UUID) :
  i ∈ Features.occupied_units leases <-> Spec.has_active_lease leases i = true.
Proof.
  induction leases as [| l ls IH]; cbn [Features.occupied_units Spec.has_active_lease existsb].
  - split; [set_solver | discriminate].
  - unfold Spec.is_active at 1.
    destruct (String.eqb (Models.Lease.status l) "active"); cbn [andb orb].
    + rewrite elem_of_union, elem_of_singleton, IH, orb_true_iff, N.eqb_eq.
      split; intros [H | H]; auto.
    + exact IH.
Qed.

Lemma size_unit_id_set (units : list Models.Unit.t) :
  size (Features.unit_id_set units) = length (Spec.distinct_unit_ids units).
Proof.
  rewrite unit_id_set_list. unfold Spec.distinct_unit_ids.
  rewrite <- (size_list_to_set (C := gset Models.UUID) (remove_dups (map Models.Unit.id units)))
    by apply NoDup_remove_dups.
  f_equal. apply set_eq. intros x.
  now rewrite !elem_of_list_to_set, elem_of_remove_dups.
Qed.

Lemma size_occupied_unit_ids (units : list Models.Unit.t) (leases : list Models.Lease.t) :
  size (Features.unit_id_set units ∩ Features.occupied_units leases)
  = Spec.occupied_unit_count units leases.
Proof.
  unfold Spec.occupied_unit_count.
  rewrite <- (size_list_to_set (C := gset Models.UUID)
                (List.filter (Spec.has_active_lease leases) (Spec.distinct_unit_ids units))).
  - f_equal. apply set_eq. intros x.
    rewrite elem_of_intersection, elem_of_occupied_units, unit_id_set_list.
    rewrite !elem_of_list_to_set, (list_elem_of_In (List.filter _ _)), filter_In.
    rewrite <- list_elem_of_In. unfold Spec.distinct_unit_ids.
    now rewrite elem_of_remove_dups.
  - apply NoDup_ListNoDup, List.NoDup_filter, NoDup_ListNoDup, NoDup_remove_dups.
Qed.

Lemma occupancy_rate_value (units : list Models.Unit.t) (leases : list Models.Lease.t) :
  Features.occupancy_rate units leases
  = Ok (if (length (Spec.distinct_unit_ids units) =? 0)%nat then Float.zero
        else Float.div (Float.of_Z (Z.of_nat (Spec.occupied_unit_count units leases)))
                       (Float.of_Z (Z.of_nat (length (Spec.distinct_unit_ids units))))).
Proof.
  unfold Features.occupancy_rate, Features.len_truediv.
  rewrite size_occupied_unit_ids, size_unit_id_set.
  now destruct (length (Spec.distinct_unit_ids units) =? 0)%nat.
Qed.

(** C5. [occupancy_rate] is [0.0] when there is no distinct unit id, and
    otherwise the number of distinct unit ids of the units that are the
    [unit_id] of an active lease, divided by the number of distinct unit
    ids; it never raises, and an active lease on a unit outside the unit
    set does not count. *)
Theorem occupancy_rate_spec :
  (forall units leases,
      Features.occupancy_rate units leases
      = Ok (if (length (Spec.distinct_unit_ids units) =? 0)%nat then Float.zero
            else Float.div (Float.of_Z (Z.of_nat (Spec.occupied_unit_count units leases)))
                           (Float.of_Z (Z.of_nat (length (Spec.distinct_unit_ids units))))))
  /\ (forall units leases l,
        ~ In (Models.Lease.unit_id l) (Spec.distinct_unit_ids units) ->
        Features.occupancy_rate units (l :: leases) = Features.occupancy_rate units leases).
Proof.
  split.
  - exact occupancy_rate_value.
  - intros units leases l Hl. rewrite !occupancy_rate_value.
    unfold Spec.occupied_unit_count.
    replace (List.filter (Spec.has_active_lease (l :: leases)) (Spec.distinct_unit_ids units))
      with (List.filter (Spec.has_active_lease leases) (Spec.distinct_unit_ids units));
      [reflexivity |].
    apply List.filter_ext_in. intros i Hi. cbn [Spec.has_active_lease existsb].
    destruct (N.eqb_spec (Models.Lease.unit_id l) i) as [E | _].
    + subst i. contradiction.
    + now rewrite andb_false_r.
Qed.

(** ** Weighted average life *)

Lemma comprehension_total {A B : Type} (f : A -> result B) (g : A -> B) (xs : list A) :
  (forall x, In x xs -> f x = Ok (g x)) -> comprehension f xs = Ok (map g xs).
Proof.
  induction xs as [| x xs IH]; intros H; [reflexivity |].
  cbn [comprehension map]. rewrite (H x) by now left. cbn [bind].
  rewrite IH by (intros y Hy; apply H; now right). reflexivity.
Qed.

Lemma min_date_fold (ds : list Models.date) (d0 : Models.date) :
  (Features.min_date d0 ds = d0 \/ In (Features.min_date d0 ds) ds)
  /\ (Features.min_date d0 ds <= d0)%Z
  /\ (forall d, In d ds -> (Features.min_date d0 ds <= d)%Z).
Proof.
  unfold Features.min_date. revert d0.
  induction ds as [| d ds IH]; intros d0.
  - cbn. repeat split; try (intros ? []); auto with zarith.
  - cbn [fold_left In].
    destruct (IH (if (d <? d0)%Z then d else d0)) as (Hin & Hle & Hall).
    destruct (Z.ltb_spec d d0) as [Hlt | Hge].
    + repeat split.
      * destruct Hin as [-> | Hin]; auto.
      * lia.
      * intros x [<- | Hx]; [exact Hle | now apply Hall].
    + repeat split.
      * destruct Hin as [-> | Hin]; auto.
      * exact Hle.
      * intros x [<- | Hx]; [lia | now apply Hall].
Qed.

Lemma min_date_earliest (d0 : Models.date) (ds : list Models.date) :
  Spec.earliest (Features.min_date d0 ds) (d0 :: ds).
Proof.
  destruct (min_date_fold ds d0) as (Hin & Hle & Hall). split.
  - destruct Hin as [-> | Hin]; [now left | now right].
  - intros d [<- | Hd]; [exact Hle | now apply Hall].
Qed.

(** The divisor of the library is the float of the literal [365.25]. *)
Lemma days_per_year_literal : Features.days_per_year = Float.decimal 36525 2.
Proof. vm_compute. reflexivity. Qed.

Lemma years_between_returns (t0 d : Models.date) :
  Features.years_between t0 d = Ok (Spec.years_since t0 d).
Proof.
  unfold Features.years_between, Spec.years_since.
  rewrite days_per_year_literal. reflexivity.
Qed.

(** C6. [weighted_average_life] is [0.0] for an empty schedule and for a
    total principal [<= 0]; otherwise it is the sum of [years_i * payment_i]
    divided by the sum of the payments, [years_i] being the days from the
    earliest date of the schedule to [date_i], divided by 365.25. *)
Theorem weighted_average_life_spec :
  Features.weighted_average_life [] = Ok Float.zero
  /\ (forall schedule,
        Float.leb (Float.sum (map snd schedule)) Float.zero = true ->
        Features.weighted_average_life schedule = Ok Float.zero)
  /\ (forall schedule,
        schedule <> [] ->
        Float.leb (Float.sum (map snd schedule)) Float.zero = false ->
        exists t0,
          Spec.earliest t0 (map fst schedule)
          /\ Features.weighted_average_life schedule = Ok (Spec.wal_formula t0 schedule)).
Proof.
  split; [reflexivity | split].
  - intros [| [d0 p0] rest] H; [reflexivity |].
    unfold Features.weighted_average_life. now rewrite H.
  - intros [| [d0 p0] rest] Hne H; [congruence |].
    exists (Features.min_date d0 (map fst rest)). split.
    + apply (min_date_earliest d0 (map fst rest)).
    + unfold Features.weighted_average_life. rewrite H.
      rewrite (comprehension_total _
                 (fun '(d, p) =>
                    Float.mul (Spec.years_since (Features.min_date d0 (map fst rest)) d) p)).
      * cbn [bind]. now apply truediv_guarded.
      * intros [d p] _. now rewrite years_between_returns.
Qed.

(** ** Sums of rationals *)




(** ** Murabaha installments *)

(** The installments of a total price in the normal range add up to
    the total price within [(months + 1) * 2^-52] of it. *)
Lemma murabaha_sum_near
  (cost_price profit_markup : Float.float) (months : Z) (s : bool) (m : positive) (e : Z) :
  Float.mul cost_price (Float.add Float.one profit_markup) = S754_finite s m e ->
  0 < months <= 2 ^ 52 ->
  (inject_Z months * Float.pow2 (-1022) <= inject_Z (Z.pos m) * Float.pow2 e)%Q ->
  (inject_Z (Z.pos m) * Float.pow2 e <= Float.pow2 1020)%Q ->
  exists schedule m' e',
    Features.murabaha_equal_installments_schedule cost_price profit_markup months = Ok schedule
    /\ Float.sum schedule = S754_finite s m' e'
    /\ (inject_Z (Z.pos m') * Float.pow2 e' - inject_Z (Z.pos m) * Float.pow2 e
        <= (inject_Z months + 1) * Float.pow2 (-52) * (inject_Z (Z.pos m) * Float.pow2 e)
        /\ inject_Z (Z.pos m) * Float.pow2 e - inject_Z (Z.pos m') * Float.pow2 e'
           <= (inject_Z months + 1) * Float.pow2 (-52) * (inject_Z (Z.pos m) * Float.pow2 e))%Q.
Proof.
  intros Htotal Hmonths Hlow Hhigh.
  set (T := (inject_Z (Z.pos m) * Float.pow2 e)%Q) in *.
  set (nQ := inject_Z months) in *.
  assert (Hn1 : (1 <= nQ)%Q) by (unfold nQ; rewrite <- (Zle_Qle 1); lia).
  assert (Hn52 : (nQ <= 4503599627370496)%Q).
  { unfold nQ. change (4503599627370496)%Q with (inject_Z (2 ^ 52)). rewrite <- Zle_Qle. lia. }
  assert (HT : (0 < T)%Q).
  { unfold T. apply Qmult_lt_0_compat; [| apply pow2_pos]. now rewrite <- (Zlt_Qlt 0). }
  destruct (of_Z_value months) as (mf & ef & Hfm & Hfmv); [lia |].
  set (V := (T / nQ)%Q).
  assert (HVn : (V * nQ == T)%Q) by (unfold V; field; lra).
  pose proof (pow2_pos (-1022)) as Hp1022.
  assert (HVlow : (Float.pow2 (-1022) <= V)%Q).
  { destruct (Qlt_le_dec V (Float.pow2 (-1022))) as [H | H]; [exfalso | exact H].
    assert (V * nQ < Float.pow2 (-1022) * nQ)%Q by (apply Qmult_lt_compat_r; lra). lra. }
  assert (HVT : (V <= T)%Q) by nra.
  assert (HVhigh : (V < Float.pow2 1023)%Q).
  { eapply Qle_lt_trans; [exact HVT |]. eapply Qle_lt_trans; [exact Hhigh |].
    now apply pow2_lt. }
  destruct (div_normal s false m mf e ef V) as (mx & ex & Hdiv & Hex & Herr);
    [rewrite Hfmv; fold nQ T; exact HVn | exact HVlow | exact HVhigh |].
  replace (xorb s false) with s in Hdiv by now destruct s.
  rewrite pow2_m53 in Herr. destruct Herr as (Herr1 & Herr2).
  set (a := (inject_Z (Z.pos mx) * Float.pow2 ex)%Q) in *.
  assert (HnQ : inject_Z (Z.of_nat (Z.to_nat months)) = nQ)
    by (unfold nQ; now rewrite Z2Nat.id by lia).
  assert (HNT1 : (nQ * a - T <= (1 # 9007199254740992) * T)%Q) by nra.
  assert (HNT2 : (T - nQ * a <= (1 # 9007199254740992) * T)%Q) by nra.
  assert (Hp : (2 * Float.pow2 1020 <= Float.pow2 1021)%Q).
  { change 2%Q with (Float.pow2 1). rewrite <- pow2_add. now apply pow2_le. }
  destruct (sum_repeat_near s mx ex (Z.to_nat months) Hex) as (m' & e' & Hsum & Hs1 & Hs2).
  - rewrite Z2Nat.id by lia. lia.
  - rewrite HnQ. fold a. lra.
  - lia.
  - rewrite HnQ in Hs1, Hs2. fold a in Hs1, Hs2.
    exists (repeat (S754_finite s mx ex) (Z.to_nat months)), m', e'.
    split; [| split; [exact Hsum |]].
    + unfold Features.murabaha_equal_installments_schedule.
      replace (months <=? 0) with false by (symmetry; apply Z.leb_gt; lia).
      rewrite Htotal. unfold Float.truediv_int, Float.of_int. rewrite Hfm. cbn [bind].
      unfold Float.truediv. cbn [Float.is_zero]. now rewrite Hdiv.
    + change (Float.pow2 (-52)) with (1 # 4503599627370496)%Q.
      set (S := (inject_Z (Z.pos m') * Float.pow2 e')%Q) in *.
      set (N := (nQ * a)%Q) in *.
      set (W := (nQ * ((1 # 4503599627370496) * N))%Q) in *.
      set (P := (nQ * T)%Q).
      assert (HN0 : (0 <= N)%Q) by lra.
      assert (HW : (W <= (1 # 4503599627370496) * P
                         + (1 # 4503599627370496) * (1 # 9007199254740992) * P)%Q).
      { unfold W, P. nra. }
      assert (HP : ((1 # 4503599627370496) * P <= T)%Q) by (unfold P; nra).
      assert (E : ((nQ + 1) * (1 # 4503599627370496) * T
                   == (1 # 4503599627370496) * P + (1 # 4503599627370496) * T)%Q)
        by (unfold P; ring).
      rewrite E. split; lra.
Qed.

Lemma to_Q_abs (s : bool) (m : positive) (e : Z) :
  (Qabs (Float.to_Q (S754_finite s m e)) == inject_Z (Z.pos m) * Float.pow2 e)%Q.
Proof.
  assert (H : (0 < inject_Z (Z.pos m) * Float.pow2 e)%Q).
  { apply Qmult_lt_0_compat; [| apply pow2_pos]. now rewrite <- (Zlt_Qlt 0). }
  unfold Float.to_Q. destruct s.
  - rewrite Qabs_neg by lra. ring.
  - rewrite Qabs_pos by lra. ring.
Qed.

Lemma to_Q_diff_abs (s : bool) (m m' : positive) (e e' : Z) (c : Q) :
  (inject_Z (Z.pos m') * Float.pow2 e' - inject_Z (Z.pos m) * Float.pow2 e <= c)%Q ->
  (inject_Z (Z.pos m) * Float.pow2 e - inject_Z (Z.pos m') * Float.pow2 e' <= c)%Q ->
  (Qabs (Float.to_Q (S754_finite s m' e') - Float.to_Q (S754_finite s m e)) <= c)%Q.
Proof.
  intros H1 H2. apply Qabs_Qle_condition. unfold Float.to_Q. destruct s; split; lra.
Qed.

(** A sum of zeros of either sign, taken from [0.0], is [0.0]. *)
Lemma float_sum_signed_zeros (s : bool) (n : nat) :
  Float.sum (repeat (S754_zero s) n) = Float.zero.
Proof.
  unfold Float.sum. induction n as [| n IH]; [reflexivity |].
  cbn [repeat fold_left].
  replace (Float.add Float.zero (S754_zero s)) with Float.zero by now destruct s.
  exact IH.
Qed.

Lemma murabaha_sum_within_tolerance
  (cost_price profit_markup : Float.float) (months : Z) :
  let total_price := Float.mul cost_price (Float.add Float.one profit_markup) in
  0 < months <= 2 ^ 52 ->
  (inject_Z months * Float.pow2 (-1022) <= Qabs (Float.to_Q total_price))%Q ->
  (Qabs (Float.to_Q total_price) <= Float.pow2 1020)%Q ->
  exists schedule,
    Features.murabaha_equal_installments_schedule cost_price profit_markup months = Ok schedule
    /\ Float.is_finite (Float.sum schedule) = true
    /\ (Qabs (Float.to_Q (Float.sum schedule) - Float.to_Q total_price)
        <= (inject_Z months + 1) * Float.pow2 (-52) * Qabs (Float.to_Q total_price))%Q.
Proof.
  intros total_price Hmonths Hlow Hhigh.
  assert (Hpos : (0 < inject_Z months * Float.pow2 (-1022))%Q).
  { apply Qmult_lt_0_compat; [| apply pow2_pos]. rewrite <- (Zlt_Qlt 0). lia. }
  destruct total_price as [s | s | | s m e] eqn:Htotal;
    try (exfalso; change (Qabs (Float.to_Q _)) with 0%Q in Hlow; lra).
  rewrite to_Q_abs in Hlow, Hhigh.
  destruct (murabaha_sum_near cost_price profit_markup months s m e Htotal Hmonths Hlow Hhigh)
    as (schedule & m' & e' & Hs & Hsum & H1 & H2).
  exists schedule. split; [exact Hs |]. rewrite Hsum. split; [reflexivity |].
  rewrite to_Q_abs. now apply to_Q_diff_abs.
Qed.

Lemma murabaha_zero_total
  (cost_price profit_markup : Float.float) (months : Z) :
  Float.is_zero (Float.mul cost_price (Float.add Float.one profit_markup)) = true ->
  0 < months < 2 ^ 53 ->
  exists schedule,
    Features.murabaha_equal_installments_schedule cost_price profit_markup months = Ok schedule
    /\ Float.sum schedule = Float.zero.
Proof.
  intros Hzero Hmonths. unfold Features.murabaha_equal_installments_schedule.
  replace (months <=? 0) with false by (symmetry; apply Z.leb_gt; lia).
  destruct (Float.mul cost_price (Float.add Float.one profit_markup)) as [s | | |];
    try discriminate.
  destruct (of_Z_value months Hmonths) as (mf & ef & Hfm & _).
  unfold Float.truediv_int, Float.of_int. rewrite Hfm. cbn [bind].
  unfold Float.truediv. cbn [Float.is_zero].
  eexists. split; [reflexivity |]. cbn [Float.div SFdiv]. apply float_sum_signed_zeros.
Qed.

(** C7. For [months <= 0] the schedule is the one-element list of the
    total price [cost_price * (1 + profit_markup)].  For [months > 0] that
    convert to a float (every [months] below [2^53] does) it is the list of
    [months] installments, each the total price divided by [months].  The
    float sum of the installments is within [(months + 1) * 2^-52] of the
    total price, relatively, for at most [2^52] months and a total price
    whose size is between [months * 2^-1022] and [2^1020]; for a total
    price of zero it is zero. *)
Theorem murabaha_equal_installments_schedule_spec :
  (forall cost_price profit_markup months,
      months <= 0 ->
      Features.murabaha_equal_installments_schedule cost_price profit_markup months
      = Ok [Float.mul cost_price (Float.add Float.one profit_markup)])
  /\ (forall cost_price profit_markup months fm,
        0 < months ->
        Float.of_int months = Ok fm ->
        let total_price := Float.mul cost_price (Float.add Float.one profit_markup) in
        Features.murabaha_equal_installments_schedule cost_price profit_markup months
        = Ok (repeat (Float.div total_price fm) (Z.to_nat months))
        /\ Z.of_nat (length (repeat (Float.div total_price fm) (Z.to_nat months))) = months)
  /\ (forall months, 0 < months < 2 ^ 53 -> returns (Float.of_int months))
  /\ (forall cost_price profit_markup months,
        let total_price := Float.mul cost_price (Float.add Float.one profit_markup) in
        0 < months <= 2 ^ 52 ->
        (inject_Z months * Float.pow2 (-1022) <= Qabs (Float.to_Q total_price))%Q ->
        (Qabs (Float.to_Q total_price) <= Float.pow2 1020)%Q ->
        exists schedule,
          Features.murabaha_equal_installments_schedule cost_price profit_markup months
          = Ok schedule
          /\ Float.is_finite (Float.sum schedule) = true
          /\ (Qabs (Float.to_Q (Float.sum schedule) - Float.to_Q total_price)
              <= (inject_Z months + 1) * Float.pow2 (-52) * Qabs (Float.to_Q total_price))%Q)
  /\ (forall cost_price profit_markup months,
        Float.is_zero (Float.mul cost_price (Float.add Float.one profit_markup)) = true ->
        0 < months < 2 ^ 53 ->
        exists schedule,
          Features.murabaha_equal_installments_schedule cost_price profit_markup months
          = Ok schedule
          /\ Float.sum schedule = Float.zero).
Proof.
  split; [| split; [| split; [| split]]].
  - intros c m months H. unfold Features.murabaha_equal_installments_schedule.
    apply Z.leb_le in H. now rewrite H.
  - intros c m months fm Hpos Hfm total_price.
    unfold Features.murabaha_equal_installments_schedule, Float.truediv_int, Float.truediv.
    replace (months <=? 0) with false by (symmetry; apply Z.leb_gt; lia).
    rewrite Hfm. cbn [bind].
    rewrite (of_int_nonzero months fm) by (lia || assumption). cbn [bind].
    split; [reflexivity |]. rewrite repeat_length. lia.
  - exact of_int_small.
  - exact murabaha_sum_within_tolerance.
  - exact murabaha_zero_total.
Qed.

(** Where the schedule and its sum fail.  The conversion of
    [months = 2^1024] overflows: no list is returned.  The largest float
    in three installments: each is rounded up, and their sum is
    infinite.  The smallest float in three installments: each is
    rounded to zero, and so is their sum.  A NaN cost: the sum is NaN,
    which equals nothing. *)
Lemma murabaha_overflow :
  (0 < 2 ^ 1024
   /\ Features.murabaha_equal_installments_schedule Float.one Float.zero (2 ^ 1024)
      = Raise OverflowError)
  /\ (let largest := S754_finite false 9007199254740991 971 in
      let installment := Float.div largest (Float.of_Z 3) in
      Float.mul largest (Float.add Float.one Float.zero) = largest
      /\ Features.murabaha_equal_installments_schedule largest Float.zero 3
         = Ok [installment; installment; installment]
      /\ Float.sum [installment; installment; installment] = Float.inf)
  /\ (let smallest := S754_finite false 1 (-1074) in
      Float.mul smallest (Float.add Float.one Float.zero) = smallest
      /\ Features.murabaha_equal_installments_schedule smallest Float.zero 3
         = Ok [Float.zero; Float.zero; Float.zero]
      /\ Float.sum [Float.zero; Float.zero; Float.zero] = Float.zero)
  /\ (Features.murabaha_equal_installments_schedule Float.nan Float.zero 2
      = Ok [Float.nan; Float.nan]
      /\ Float.sum [Float.nan; Float.nan] = Float.nan
      /\ Float.eqb Float.nan Float.nan = false).
Proof.
  split; [split; [reflexivity | vm_compute; reflexivity] |].
  split; [| split]; vm_compute; repeat split; reflexivity.
Qed.

(** ** Risk parity weights *)

Lemma comprehension_map {A B C : Type} (p : A -> B) (f : B -> result C) (xs : list A) :
  comprehension f (map p xs) = comprehension (fun x => f (p x)) xs.
Proof.
  induction xs as [| x xs IH]; [reflexivity |].
  cbn [map comprehension]. now rewrite IH.
Qed.














(** ** The report *)

Lemma kwh_per_m2_day_from_series_returns (u : Models.Unit.t) (vals : list Float.float) :
  returns (Features.kwh_per_m2_day_from_series u vals).
Proof.
  unfold Features.kwh_per_m2_day_from_series, Features.truediv_len, Float.truediv, returns.
  destruct (Float.leb (Models.Unit.nla_m2 u) Float.zero) eqn:En; cbn [orb]; [eauto |].
  destruct vals as [| v vals]; cbn [length Nat.eqb]; [eauto |].
  rewrite of_Z_nonzero by lia. cbn [bind].
  rewrite (not_le_zero_nonzero _ En). eauto.
Qed.

(** [fetch_readings] returns the rows from the start of the window on
    when the window exists, and raises [OverflowError] when it does
    not. *)
Lemma fetch_readings_window (data : Cli.db) (meter_id : Models.UUID) (days_back : Z) :
  Cli.fetch_readings data meter_id days_back
  = if Spec.window_in_range (Cli.utcnow data) days_back
    then Ok (Cli.meter_reading_rows data meter_id
               (Spec.window_start (Cli.utcnow data) days_back))
    else Raise OverflowError.
Proof.
  unfold Cli.fetch_readings, Cli.timedelta_days, Cli.datetime_sub,
    Spec.window_in_range, Spec.window_start.
  destruct (Z.leb_spec (Z.abs days_back) 999999999) as [Habs | Habs]; cbn [bind].
  - replace (-999999999 <=? days_back) with true by (symmetry; apply Z.leb_le; lia).
    replace (days_back <=? 999999999) with true by (symmetry; apply Z.leb_le; lia).
    cbn [andb].
    now destruct ((1 <=? Models.Datetime.date (Cli.utcnow data) - days_back)
                  && (Models.Datetime.date (Cli.utcnow data) - days_back <=? 3652059)).
  - destruct (Z.leb_spec (-999999999) days_back), (Z.leb_spec days_back 999999999);
      try lia; reflexivity.
Qed.

Lemma find_existsb {A : Type} (f : A -> bool) (l : list A) :
  existsb f l = match List.find f l with Some _ => true | None => false end.
Proof.
  induction l as [| x l IH]; cbn [existsb List.find]; [reflexivity |].
  destruct (f x); [reflexivity | exact IH].
Qed.

(** The two ends of line 30 of [main]: the readings are fetched when
    they are in reach, and the fetch raises when the unit has an
    electricity meter and the window does not exist. *)
Lemma unit_readings_fetched (data : Cli.db) (a : Cli.args) (u : Models.Unit.t) :
  Spec.readings_in_reach data a u ->
  match List.find Spec.is_electricity (Cli.fetch_unit_meters data (Models.Unit.id u)) with
  | Some m => Cli.fetch_readings data (Models.Meter.id m) (Cli.days_back a)
  | None => Ok []
  end = Ok (Spec.unit_readings data a u).
Proof.
  unfold Spec.readings_in_reach, Spec.unit_readings. rewrite find_existsb.
  destruct (List.find Spec.is_electricity _) as [m |]; [| reflexivity].
  intros H. now rewrite fetch_readings_window, H.
Qed.

Lemma unit_readings_out_of_reach (data : Cli.db) (a : Cli.args) (u : Models.Unit.t) :
  ~ Spec.readings_in_reach data a u ->
  match List.find Spec.is_electricity (Cli.fetch_unit_meters data (Models.Unit.id u)) with
  | Some m => Cli.fetch_readings data (Models.Meter.id m) (Cli.days_back a)
  | None => Ok []
  end = Raise OverflowError.
Proof.
  unfold Spec.readings_in_reach. rewrite find_existsb.
  destruct (List.find Spec.is_electricity _) as [m |].
  - intros H. rewrite fetch_readings_window.
    destruct (Spec.window_in_range _ _); [exfalso; now apply H | reflexivity].
  - intros H. exfalso. apply H. discriminate.
Qed.

Section Main.

Import Cli.

Variables (data : db) (today : Models.date) (a : args).
Variables (u : Models.Unit.t) (b : Models.Building.t) (p : Models.Parcel.t).
Hypothesis found : fetch_unit_core data (unit_id a) = Some (u, b, p).
Hypothesis in_reach : Spec.readings_in_reach data a u.

Let unit_leases : list Models.Lease.t := fetch_active_leases data (Models.Unit.id u).
Let annual_noi : Float.float :=
  Features.noi (Features.rent_roll_total unit_leases) Float.zero Float.zero.
Let assumed_value : Float.float :=
  if Float.leb (assumed_cap_rate a) Float.zero then Float.inf
  else Float.div annual_noi (assumed_cap_rate a).

(** A run on a unit that is found, with its readings in reach,
    completes, and its valuation section is the one computed from the
    rent roll of the fetched leases. *)
Lemma main_valuation :
  exists r,
    main data today a = Ok r
    /\ valuation r
       = {| valuation_assumed_cap_rate := assumed_cap_rate a;
            noi_annual := annual_noi;
            implied_value := assumed_value;
            ltv_from_input_balance :=
              if Float.gtb (loan_balance a) Float.zero
              then Some (if Float.leb assumed_value Float.zero then Float.zero
                         else Float.div (loan_balance a) assumed_value)
              else None |}.
Proof.
  unfold main. rewrite found.
  change (List.find (fun m => String.eqb (Models.Meter.type m) "electricity")
            (fetch_unit_meters data (Models.Unit.id u)))
    with (List.find Spec.is_electricity (fetch_unit_meters data (Models.Unit.id u))).
  rewrite (unit_readings_fetched data a u in_reach). cbn [bind].
  rewrite value_from_cap_value. cbn [bind].
  fold unit_leases. fold annual_noi. fold assumed_value.
  rewrite occupancy_rate_value.
  destruct (Float.gtb (loan_balance a) Float.zero);
    [rewrite ltv_value |]; cbn [bind];
    match goal with
    | |- context [match ?d with [] => _ | _ :: _ => Features.kwh_per_m2_day_from_series ?x ?y end] =>
        assert (H : returns (match d with
                             | [] => Ok Float.zero
                             | _ :: _ => Features.kwh_per_m2_day_from_series x y
                             end))
          by (destruct d; [eexists; reflexivity | apply kwh_per_m2_day_from_series_returns]);
        destruct H as [i ->]
    end; cbn [bind]; eexists; (split; [reflexivity |]); reflexivity.
Qed.

End Main.

Lemma main_not_found (data : Cli.db) (today : Models.date) (a : Cli.args) :
  Cli.fetch_unit_core data (Cli.unit_id a) = None ->
  Cli.main data today a = Raise ValueError.
Proof. intros H. unfold Cli.main. now rewrite H. Qed.

(** C9. In a run of the report assembler that gets to its metrics (the
    unit is found and its readings are in reach) the field
    [ltv_from_input_balance] is null exactly when the loan balance is not
    [> 0]; otherwise it is [ltv(loan_balance, implied_value)], computed
    from the implied value of the same report. *)
Theorem ltv_from_input_balance_spec
  (data : Cli.db) (today : Models.date) (a : Cli.args)
  (u : Models.Unit.t) (b : Models.Building.t) (p : Models.Parcel.t) :
  Cli.fetch_unit_core data (Cli.unit_id a) = Some (u, b, p) ->
  Spec.readings_in_reach data a u ->
  exists r,
    Cli.main data today a = Ok r
    /\ (Cli.ltv_from_input_balance (Cli.valuation r) = None
        <-> Float.gtb (Cli.loan_balance a) Float.zero = false)
    /\ (Float.gtb (Cli.loan_balance a) Float.zero = true ->
        exists x,
          Features.ltv (Cli.loan_balance a) (Cli.implied_value (Cli.valuation r)) = Ok x
          /\ Cli.ltv_from_input_balance (Cli.valuation r) = Some x).
Proof.
  intros found in_reach.
  destruct (main_valuation data today a u b p found in_reach) as (r & Hr & Hv).
  exists r. split; [exact Hr |]. rewrite Hv. cbn.
  destruct (Float.gtb (Cli.loan_balance a) Float.zero).
  - split; [split; discriminate |]. intros _.
    rewrite ltv_value. eexists. split; reflexivity.
  - split; [split; reflexivity |]. discriminate.
Qed.

(** C1. A run that gets to its metrics (the unit is found and its
    readings are in reach) over a unit with exactly one active lease, of
    monthly rent 5000, at the assumed cap rate 0.06: the annual NOI is
    60000 and the implied value 1,000,000; with a loan balance of 400,000
    the LTV is 0.4. *)
Theorem end_to_end_valuation
  (data : Cli.db) (today : Models.date) (a : Cli.args)
  (u : Models.Unit.t) (b : Models.Building.t) (p : Models.Parcel.t) (l : Models.Lease.t) :
  Cli.fetch_unit_core data (Cli.unit_id a) = Some (u, b, p) ->
  Spec.readings_in_reach data a u ->
  Cli.fetch_active_leases data (Models.Unit.id u) = [l] ->
  Models.Lease.status l = "active"%string ->
  Models.Lease.rent_monthly l = Float.of_Z 5000 ->
  Cli.assumed_cap_rate a = Float.decimal 6 2 ->
  exists r,
    Cli.main data today a = Ok r
    /\ Cli.noi_annual (Cli.valuation r) = Float.of_Z 60000
    /\ Cli.implied_value (Cli.valuation r) = Float.of_Z 1000000
    /\ (Cli.loan_balance a = Float.of_Z 400000 ->
        Cli.ltv_from_input_balance (Cli.valuation r) = Some (Float.decimal 4 1)).
Proof.
  intros found in_reach Hl Hs Hrent Hcap.
  destruct (main_valuation data today a u b p found in_reach) as (r & Hr & Hv).
  exists r. split; [exact Hr |]. rewrite Hv. cbn [Cli.noi_annual Cli.implied_value
                                                   Cli.ltv_from_input_balance].
  rewrite Hl, Hcap. unfold Features.rent_roll_total. cbn [Features.rents_of_active].
  rewrite Hs, Hrent. split; [| split].
  - vm_compute. reflexivity.
  - vm_compute. reflexivity.
  - intros ->. vm_compute. reflexivity.
Qed.

(** ** Title records *)

Lemma all_ascii_complete (c : ascii) : In c Spec.all_ascii.
Proof.
  unfold Spec.all_ascii. rewrite <- (ascii_nat_embedding c).
  apply in_map, in_seq. pose proof (nat_ascii_bounded c). lia.
Qed.

Lemma lower_char_ignore_case (a b : ascii) :
  Models.lower_char b = b ->
  (Models.lower_char a = b <-> Spec.eqb_ignore_case_char a b = true).
Proof.
  assert (H : forallb
                (fun a =>
                   forallb
                     (fun b =>
                        implb (Ascii.eqb (Models.lower_char b) b)
                          (Bool.eqb (Ascii.eqb (Models.lower_char a) b)
                             (Spec.eqb_ignore_case_char a b)))
                     Spec.all_ascii)
                Spec.all_ascii = true) by (vm_compute; reflexivity).
  rewrite forallb_forall in H. specialize (H a (all_ascii_complete a)).
  rewrite forallb_forall in H. specialize (H b (all_ascii_complete b)).
  intros Hb. apply Ascii.eqb_eq in Hb. rewrite Hb in H. cbn [implb] in H.
  apply Bool.eqb_prop in H. rewrite <- H. symmetry. apply Ascii.eqb_eq.
Qed.

Lemma lower_ignore_case (s w : string) :
  Models.lower w = w ->
  (Models.lower s = w <-> Spec.eqb_ignore_case s w = true).
Proof.
  revert w. induction s as [| a s IH]; intros [| b w] Hw;
    cbn [Models.lower Spec.eqb_ignore_case]; try (split; [discriminate | discriminate]).
  - split; reflexivity.
  - cbn [Models.lower] in Hw. injection Hw as Hb Hw.
    rewrite andb_true_iff, <- (lower_char_ignore_case a b Hb), <- (IH w Hw).
    split; [intros E; injection E; auto | intros [-> ->]; reflexivity].
Qed.

Lemma lien_status_clear (encumbrance : gmap string string) :
  Models.lower (default EmptyString (encumbrance !! "lien_status"%string))
    ∈ ({[ "free"%string; "released"%string ]} : gset string)
  <-> Spec.lien_is_clear encumbrance.
Proof.
  unfold Spec.lien_is_clear.
  rewrite elem_of_union, !elem_of_singleton.
  rewrite (lower_ignore_case _ "free") by reflexivity.
  rewrite (lower_ignore_case _ "released") by reflexivity.
  destruct (encumbrance !! "lien_status"%string) as [v |]; cbn [default].
  - split; [intros H; now exists v | intros (v' & E & H); now inversion E; subst].
  - split; [intros [H | H]; discriminate | intros (v' & E & _); discriminate].
Qed.

(** C10. Both definitions of [title_clean_flag_from_record], the one of
    [models.py] and the one of [features.py], return [False] for an absent
    record, and for a present one [True] exactly when the encumbrance has
    a [lien_status] that reads [free] or [released] up to case; a missing
    [lien_status] gives [False]. *)
Theorem title_clean_flag_from_record_spec :
  Models.title_clean_flag_from_record None = false
  /\ Features.title_clean_flag_from_record None = false
  /\ (forall t,
        (Models.title_clean_flag_from_record (Some t) = true
         <-> Spec.lien_is_clear (Models.TitleRecord.encumbrance t))
        /\ (Features.title_clean_flag_from_record (Some t) = true
            <-> Spec.lien_is_clear (Models.TitleRecord.encumbrance t)))
  /\ (forall t,
        Models.TitleRecord.encumbrance t !! "lien_status"%string = None ->
        Models.title_clean_flag_from_record (Some t) = false
        /\ Features.title_clean_flag_from_record (Some t) = false).
Proof.
  split; [reflexivity | split; [reflexivity | split]].
  - intros t. unfold Models.title_clean_flag_from_record,
      Features.title_clean_flag_from_record.
    rewrite bool_decide_eq_true. split; apply lien_status_clear.
  - intros t H. unfold Models.title_clean_flag_from_record,
      Features.title_clean_flag_from_record.
    rewrite H. split; reflexivity.
Qed.

(** ** The theorems at the examples of the specification *)

(** The report of the end-to-end example of the specification. *)
Lemma end_to_end_valuation_witness :
  exists r,
    Cli.main Sample.data Sample.today (Sample.args 400000) = Ok r
    /\ Cli.noi_annual (Cli.valuation r) = Float.of_Z 60000
    /\ Cli.implied_value (Cli.valuation r) = Float.of_Z 1000000
    /\ Cli.ltv_from_input_balance (Cli.valuation r) = Some (Float.decimal 4 1).
Proof.
  destruct (end_to_end_valuation Sample.data Sample.today (Sample.args 400000)
              (Sample.unit 1%N) Sample.building Sample.parcel
              (Sample.lease 1%N 5000 "active")
              eq_refl (fun _ => eq_refl) eq_refl eq_refl eq_refl eq_refl)
    as (r & Hr & Hn & Hv & Hl).
  exists r. repeat split; [exact Hr | exact Hn | exact Hv | exact (Hl eq_refl)].
Defined.

(** [rent_roll_total] on an active lease of 1000 and an expired one of
    2000 is 1000. *)
Lemma rent_roll_total_spec_witness :
  Features.rent_roll_total [Sample.lease 1%N 1000 "active"; Sample.lease 1%N 2000 "expired"]
  = Float.of_Z 1000.
Proof.
  destruct rent_roll_total_spec as (_ & Hskip & _).
  etransitivity.
  - apply (Hskip [Sample.lease 1%N 1000 "active"] (Sample.lease 1%N 2000 "expired") []).
    discriminate.
  - reflexivity.
Defined.

(** Two units, one active lease on one of them and one on a unit outside
    the set: the occupancy rate is 0.5. *)
Lemma occupancy_rate_spec_witness :
  Features.occupancy_rate [Sample.unit 1%N; Sample.unit 2%N]
    [Sample.lease 3%N 700 "active"; Sample.lease 1%N 1000 "active"]
  = Ok (Float.decimal 5 1).
Proof.
  destruct occupancy_rate_spec as (Hvalue & Houtside).
  etransitivity.
  - apply (Houtside [Sample.unit 1%N; Sample.unit 2%N] [Sample.lease 1%N 1000 "active"]
             (Sample.lease 3%N 700 "active")).
    vm_compute. intros [H | [H | []]]; discriminate.
  - rewrite Hvalue. vm_compute. reflexivity.
Defined.

(** Two payments of 100, 365 days apart: half of [365 / 365.25] years,
    which is 0.4996577686516085, a little below the 0.5 of a year of
    365 days. *)
Lemma weighted_average_life_spec_witness :
  exists t0 wal,
    Spec.earliest t0 [738000; 738365]
    /\ Features.weighted_average_life [(738000, Float.of_Z 100); (738365, Float.of_Z 100)]
       = Ok wal
    /\ wal = Spec.wal_formula t0 [(738000, Float.of_Z 100); (738365, Float.of_Z 100)]
    /\ wal = Float.decimal 4996577686516085 16
    /\ Float.ltb wal (Float.decimal 5 1) = true.
Proof.
  destruct weighted_average_life_spec as (_ & _ & Hformula).
  destruct (Hformula [(738000, Float.of_Z 100); (738365, Float.of_Z 100)])
    as (t0 & Hearliest & Hwal).
  - discriminate.
  - vm_compute. reflexivity.
  - exists t0, (Spec.wal_formula t0 [(738000, Float.of_Z 100); (738365, Float.of_Z 100)]).
    assert (Ht0 : t0 = 738000).
    { destruct Hearliest as ([<- | [<- | []]] & Hle); [reflexivity |].
      exfalso. apply (Hle 738000 (or_introl eq_refl)). reflexivity. }
    repeat split; try assumption.
    + now destruct Hearliest.
    + now destruct Hearliest.
    + subst t0. vm_compute. reflexivity.
    + subst t0. vm_compute. reflexivity.
Defined.

(** [murabaha_equal_installments_schedule(100000, 0.1, 12)]: twelve
    installments of a total price of 110000.00000000001, which add up
    to 110000.00000000004. *)
Lemma murabaha_equal_installments_schedule_spec_witness :
  let total_price := Float.mul (Float.of_Z 100000) (Float.add Float.one (Float.decimal 1 1)) in
  Features.murabaha_equal_installments_schedule (Float.of_Z 100000) (Float.decimal 1 1) 12
  = Ok (repeat (Float.div total_price (Float.of_Z 12)) 12)
  /\ Z.of_nat (length (repeat (Float.div total_price (Float.of_Z 12)) 12)) = 12
  /\ total_price = S754_finite false 7559142440960001 (-36)
  /\ Float.sum (repeat (Float.div total_price (Float.of_Z 12)) 12)
     = S754_finite false 7559142440960003 (-36)
  /\ (Qabs (Float.to_Q (Float.sum (repeat (Float.div total_price (Float.of_Z 12)) 12))
            - Float.to_Q total_price)
      <= (inject_Z 12 + 1) * Float.pow2 (-52) * Qabs (Float.to_Q total_price))%Q.
Proof.
  intros total_price.
  destruct murabaha_equal_installments_schedule_spec as (_ & Hlist & _ & Hsum & _).
  destruct (Hlist (Float.of_Z 100000) (Float.decimal 1 1) 12 (Float.of_Z 12))
    as (Hschedule & Hlength); [lia | vm_compute; reflexivity |].
  destruct (Hsum (Float.of_Z 100000) (Float.decimal 1 1) 12)
    as (schedule & Hs & _ & Htol).
  - lia.
  - apply Qle_bool_imp_le. vm_compute. reflexivity.
  - apply Qle_bool_imp_le. vm_compute. reflexivity.
  - pose proof (Ok_injective _ _ (eq_trans (eq_sym Hschedule) Hs)) as E. subst schedule.
    split; [exact Hschedule | split; [exact Hlength |]].
    split; [vm_compute; reflexivity |]. split; [vm_compute; reflexivity | exact Htol].
Defined.


(** The sample run with a loan balance of 400,000 and without one. *)
Lemma ltv_from_input_balance_spec_witness :
  (exists r,
      Cli.main Sample.data Sample.today (Sample.args 400000) = Ok r
      /\ Cli.ltv_from_input_balance (Cli.valuation r) <> None)
  /\ (exists r,
        Cli.main Sample.data Sample.today (Sample.args 0) = Ok r
        /\ Cli.ltv_from_input_balance (Cli.valuation r) = None).
Proof.
  split.
  - destruct (ltv_from_input_balance_spec Sample.data Sample.today (Sample.args 400000)
                (Sample.unit 1%N) Sample.building Sample.parcel eq_refl (fun _ => eq_refl))
      as (r & Hr & Hnone & Hsome).
    exists r. split; [exact Hr |].
    destruct (Hsome eq_refl) as (x & _ & ->). discriminate.
  - destruct (ltv_from_input_balance_spec Sample.data Sample.today (Sample.args 0)
                (Sample.unit 1%N) Sample.building Sample.parcel eq_refl (fun _ => eq_refl))
      as (r & Hr & Hnone & _).
    exists r. split; [exact Hr |]. apply Hnone. reflexivity.
Defined.

(** A title whose [lien_status] is [FREE] is clean, one without
    [lien_status] is not. *)
Lemma title_clean_flag_from_record_spec_witness :
  Features.title_clean_flag_from_record
    (Some (Sample.title {[ "lien_status"%string := "FREE"%string ]})) = true
  /\ Features.title_clean_flag_from_record (Some (Sample.title ∅)) = false.
Proof.
  destruct title_clean_flag_from_record_spec as (_ & _ & Hclear & Hmissing).
  split.
  - apply (Hclear (Sample.title {[ "lien_status"%string := "FREE"%string ]})).
    exists "FREE"%string. split; [reflexivity | left; reflexivity].
  - apply (Hmissing (Sample.title ∅)). reflexivity.
Defined.

(** * Further properties, read off the code *)

(** ** Dicts that accumulate totals *)

Section DictFacts.
Context {K V : Type} `{EqDecision K}.
Implicit Types (d : Dict.t K V) (k : K) (v : V).

Lemma dict_lookup_set d k k' v :
  Dict.lookup k (Dict.set d k' v) = if decide (k = k') then Some v else Dict.lookup k d.
Proof.
  induction d as [| [k0 v0] d IH]; cbn [Dict.set Dict.lookup].
  - reflexivity.
  - destruct (decide (k' = k0)) as [-> | Hne]; cbn [Dict.lookup].
    + destruct (decide (k = k0)); reflexivity.
    + rewrite IH. destruct (decide (k = k0)) as [-> | ?]; [| reflexivity].
      now rewrite decide_False by congruence.
Qed.

Lemma dict_get_set d k k' v (default : V) :
  Dict.get (Dict.set d k' v) k default = if decide (k = k') then v else Dict.get d k default.
Proof. unfold Dict.get. rewrite dict_lookup_set. now destruct (decide (k = k')). Qed.

Lemma dict_keys_set d k v :
  Dict.keys (Dict.set d k v)
  = if bool_decide (k ∈ Dict.keys d) then Dict.keys d else Dict.keys d ++ [k].
Proof.
  unfold Dict.keys. induction d as [| [k0 v0] d IH]; cbn [Dict.set map fst].
  - reflexivity.
  - destruct (decide (k = k0)) as [-> | Hne]; cbn [map fst].
    + rewrite bool_decide_eq_true_2 by apply list_elem_of_here. reflexivity.
    + rewrite IH. destruct (bool_decide (k ∈ map fst d)) eqn:E.
      * apply bool_decide_eq_true_1 in E.
        rewrite bool_decide_eq_true_2 by now apply list_elem_of_further. reflexivity.
      * apply bool_decide_eq_false_1 in E.
        rewrite bool_decide_eq_false_2; [reflexivity |].
        rewrite elem_of_cons. intros [? | ?]; congruence.
Qed.

End DictFacts.

Section FilterFacts.
Context {A : Type}.
Implicit Types (P Q : A -> bool) (l : list A).

Lemma filter_comm P Q l :
  List.filter P (List.filter Q l) = List.filter Q (List.filter P l).
Proof.
  induction l as [| x l IH]; [reflexivity |]. cbn [List.filter].
  destruct (P x) eqn:EP, (Q x) eqn:EQ; cbn [List.filter]; rewrite ?EP, ?EQ, IH; reflexivity.
Qed.

Lemma filter_absorb P Q l :
  (forall x, P x = true -> Q x = true) ->
  List.filter P (List.filter Q l) = List.filter P l.
Proof.
  intros H. induction l as [| x l IH]; [reflexivity |]. cbn [List.filter].
  destruct (P x) eqn:EP.
  - rewrite (H x EP). cbn [List.filter]. now rewrite EP, IH.
  - destruct (Q x); cbn [List.filter]; now rewrite ?EP, IH.
Qed.

Lemma filter_both P Q l :
  List.filter P (List.filter Q l) = List.filter (fun x => Q x && P x) l.
Proof.
  induction l as [| x l IH]; [reflexivity |]. cbn [List.filter].
  destruct (Q x); cbn [List.filter andb]; [destruct (P x) |]; now rewrite IH.
Qed.

End FilterFacts.

Section FirstOccurrences.
Context {K : Type} `{EqDecision K}.
Implicit Types (P : K -> bool) (l : list K) (k : K).

Lemma first_occurrences_filter P l :
  Spec.first_occurrences (List.filter P l) = List.filter P (Spec.first_occurrences l).
Proof.
  induction l as [| k l IH]; [reflexivity |].
  cbn [List.filter Spec.first_occurrences].
  destruct (P k) eqn:EP; cbn [Spec.first_occurrences List.filter]; rewrite ?EP.
  - rewrite IH. f_equal. apply filter_comm.
  - rewrite IH. symmetry. apply filter_absorb.
    intros x Hx. apply negb_true_iff, bool_decide_eq_false_2. congruence.
Qed.

Lemma elem_of_first_occurrences l k : k ∈ Spec.first_occurrences l <-> k ∈ l.
Proof.
  induction l as [| k0 l IH]; cbn [Spec.first_occurrences]; [reflexivity |].
  rewrite !elem_of_cons, list_elem_of_In, filter_In, <- list_elem_of_In, IH.
  rewrite negb_true_iff, bool_decide_eq_false.
  destruct (decide (k = k0)); tauto.
Qed.

Lemma NoDup_first_occurrences l : NoDup (Spec.first_occurrences l).
Proof.
  induction l as [| k l IH]; cbn [Spec.first_occurrences]; [constructor |].
  apply NoDup_cons. split.
  - rewrite list_elem_of_In, filter_In, negb_true_iff, bool_decide_eq_false. tauto.
  - apply NoDup_ListNoDup, List.NoDup_filter, NoDup_ListNoDup, IH.
Qed.

End FirstOccurrences.

Section Accumulate.
Context {K X : Type} `{EqDecision K} (key : X -> K) (val : X -> Float.float).

Let step (acc : Dict.t K Float.float) (x : X) : Dict.t K Float.float :=
  Dict.set acc (key x) (Float.add (Dict.get acc (key x) Float.zero) (val x)).

Lemma accumulate_lookup (xs : list X) (acc : Dict.t K Float.float) (k : K) :
  Dict.lookup k (fold_left step xs acc)
  = match map val (List.filter (fun x => bool_decide (key x = k)) xs) with
    | [] => Dict.lookup k acc
    | v :: vs => Some (fold_left Float.add (v :: vs) (Dict.get acc k Float.zero))
    end.
Proof.
  revert acc. induction xs as [| x xs IH]; intros acc; [reflexivity |].
  cbn [fold_left List.filter]. rewrite IH. unfold step.
  rewrite dict_lookup_set, dict_get_set.
  destruct (decide (key x = k)) as [E | E].
  - subst k. rewrite bool_decide_eq_true_2 by reflexivity. cbn [map fold_left].
    destruct (decide (key x = key x)); [| congruence].
    now destruct (map val _).
  - rewrite bool_decide_eq_false_2 by exact E.
    destruct (decide (k = key x)); [congruence | reflexivity].
Qed.

Lemma accumulate_keys (xs : list X) (acc : Dict.t K Float.float) :
  Dict.keys (fold_left step xs acc)
  = Dict.keys acc
    ++ Spec.first_occurrences
         (List.filter (fun k => negb (bool_decide (k ∈ Dict.keys acc))) (map key xs)).
Proof.
  revert acc. induction xs as [| x xs IH]; intros acc.
  - cbn. now rewrite app_nil_r.
  - cbn [fold_left map List.filter]. rewrite IH. unfold step.
    rewrite dict_keys_set.
    destruct (bool_decide (key x ∈ Dict.keys acc)) eqn:E; cbn [negb]; [reflexivity |].
    cbn [Spec.first_occurrences]. rewrite <- app_assoc. cbn [app]. do 2 f_equal.
    rewrite <- first_occurrences_filter, filter_both. f_equal.
    apply List.filter_ext. intros k.
    rewrite <- negb_orb. f_equal.
    apply eq_true_iff_eq. rewrite orb_true_iff, !bool_decide_eq_true.
    rewrite elem_of_app, list_elem_of_singleton. tauto.
Qed.

End Accumulate.

Lemma filter_not_elem_of_nil {K : Type} `{EqDecision K} (l : list K) :
  List.filter (fun k => negb (bool_decide (k ∈ @nil K))) l = l.
Proof.
  induction l as [| k l IH]; [reflexivity |]. cbn [List.filter].
  rewrite bool_decide_eq_false_2 by apply not_elem_of_nil. cbn [negb]. now rewrite IH.
Qed.

Lemma fold_left_pointwise {A B : Type} (f g : A -> B -> A) (l : list B) (a : A) :
  (forall a b, f a b = g a b) -> fold_left f l a = fold_left g l a.
Proof.
  intros H. revert a. induction l as [| b l IH]; intros a; [reflexivity |].
  cbn [fold_left]. now rewrite H, IH.
Qed.

Lemma exposure_by_bucket_accumulate (values_by_bucket : list (string * Float.float)) :
  Features.exposure_by_bucket values_by_bucket
  = fold_left
      (fun agg x => Dict.set agg (fst x) (Float.add (Dict.get agg (fst x) Float.zero) (snd x)))
      values_by_bucket [].
Proof. apply fold_left_pointwise. now intros agg [bucket v]. Qed.

(** X1. The dict of [exposure_by_bucket] has one entry for each bucket
    of the input, and its keys come in the order in which the buckets
    first occur. *)
Theorem exposure_by_bucket_keys (values_by_bucket : list (string * Float.float)) :
  Dict.wf (Features.exposure_by_bucket values_by_bucket)
  /\ Dict.keys (Features.exposure_by_bucket values_by_bucket)
     = Spec.first_occurrences (map fst values_by_bucket).
Proof.
  assert (E : Dict.keys (Features.exposure_by_bucket values_by_bucket)
              = Spec.first_occurrences (map fst values_by_bucket)).
  { rewrite exposure_by_bucket_accumulate, (accumulate_keys fst snd). cbn [Dict.keys map app].
    now rewrite filter_not_elem_of_nil. }
  split; [| exact E]. unfold Dict.wf. rewrite E. apply NoDup_first_occurrences.
Qed.

(** X2. [exposure_by_bucket] maps a bucket to the sum, taken from [0.0]
    in the order of the input, of the values recorded for it; a bucket
    that does not occur has no entry. *)
Theorem exposure_by_bucket_values (values_by_bucket : list (string * Float.float)) (b : string) :
  Dict.lookup b (Features.exposure_by_bucket values_by_bucket)
  = match Spec.bucket_values b values_by_bucket with
    | [] => None
    | _ :: _ => Some (Float.sum (Spec.bucket_values b values_by_bucket))
    end.
Proof.
  rewrite exposure_by_bucket_accumulate, (accumulate_lookup fst snd).
  unfold Spec.bucket_values.
  now destruct (map snd _).
Qed.

Lemma dict_values_by_key {K V : Type} `{EqDecision K} (d : Dict.t K V) (dflt : V) :
  Dict.wf d -> Dict.values d = map (fun k => Dict.get d k dflt) (Dict.keys d).
Proof.
  unfold Dict.wf, Dict.values, Dict.keys, Dict.get.
  induction d as [| [k v] d IH]; intros Hwf; [reflexivity |].
  cbn [map fst snd Dict.lookup] in *. apply NoDup_cons in Hwf as [Hk Hwf].
  rewrite decide_True by reflexivity. f_equal.
  rewrite (IH Hwf). apply map_ext_in. intros k' Hk'.
  rewrite decide_False; [reflexivity |].
  intros ->. apply Hk. now apply list_elem_of_In.
Qed.

Lemma readings_by_day_keys (readings : list Models.MeterReading.t) :
  Dict.keys (Cli.readings_by_day readings)
  = Spec.first_occurrences
      (map (fun r => Models.Datetime.date (Models.MeterReading.ts r)) readings).
Proof.
  unfold Cli.readings_by_day.
  rewrite (accumulate_keys (fun r => Models.Datetime.date (Models.MeterReading.ts r))
             Models.MeterReading.value).
  cbn [Dict.keys map app]. now rewrite filter_not_elem_of_nil.
Qed.

Lemma readings_by_day_lookup (readings : list Models.MeterReading.t) (d : Models.date) :
  Dict.lookup d (Cli.readings_by_day readings)
  = match Spec.day_values d readings with
    | [] => None
    | _ :: _ => Some (Float.sum (Spec.day_values d readings))
    end.
Proof.
  unfold Cli.readings_by_day.
  rewrite (accumulate_lookup (fun r => Models.Datetime.date (Models.MeterReading.ts r))
             Models.MeterReading.value).
  unfold Spec.day_values. now destruct (map Models.MeterReading.value _).
Qed.

Lemma readings_by_day_wf (readings : list Models.MeterReading.t) :
  Dict.wf (Cli.readings_by_day readings).
Proof. unfold Dict.wf. rewrite readings_by_day_keys. apply NoDup_first_occurrences. Qed.

Lemma readings_by_day_values (readings : list Models.MeterReading.t) :
  Dict.values (Cli.readings_by_day readings) = Spec.daily_totals readings.
Proof.
  rewrite (dict_values_by_key _ Float.zero (readings_by_day_wf readings)).
  rewrite readings_by_day_keys. unfold Spec.daily_totals, Spec.reading_days.
  apply map_ext. intros d. unfold Dict.get. rewrite readings_by_day_lookup.
  now destruct (Spec.day_values d readings).
Qed.

Lemma kwh_per_m2_day_from_series_value (u : Models.Unit.t) (vals : list Float.float) :
  Features.kwh_per_m2_day_from_series u vals = Ok (Spec.mean_intensity u vals).
Proof.
  unfold Features.kwh_per_m2_day_from_series, Spec.mean_intensity,
    Features.truediv_len, Float.truediv.
  destruct (Float.leb (Models.Unit.nla_m2 u) Float.zero) eqn:En; cbn [orb]; [reflexivity |].
  destruct vals as [| v vals]; cbn [length Nat.eqb]; [reflexivity |].
  rewrite of_Z_nonzero by lia. cbn [bind].
  now rewrite (not_le_zero_nonzero _ En).
Qed.

Section Report.

Import Cli.

Variables (data : db) (today : Models.date) (a : args).
Variables (u : Models.Unit.t) (b : Models.Building.t) (p : Models.Parcel.t).
Hypothesis found : fetch_unit_core data (unit_id a) = Some (u, b, p).
Hypothesis in_reach : Spec.readings_in_reach data a u.

Let unit_leases : list Models.Lease.t := fetch_active_leases data (Models.Unit.id u).
Let readings : list Models.MeterReading.t := Spec.unit_readings data a u.

Lemma main_sections :
  exists r,
    main data today a = Ok r
    /\ leases r
       = {| active_count := length unit_leases;
            rent_monthly_total := Features.rent_roll_total unit_leases |}
    /\ compliance r
       = {| days_since_occupancy :=
              Features.days_since_last_occupancy today
                (fetch_latest_permit_for_building data (Models.Building.id b));
            title_clean :=
              Features.title_clean_flag_from_record
                (fetch_latest_title data (Models.Unit.id u) (Models.Parcel.id p)) |}
    /\ energy r
       = {| kwh_per_m2_day := Spec.mean_intensity u (Spec.daily_totals readings);
            window_days := days_back a |}.
Proof.
  unfold main. rewrite found.
  change (List.find (fun m => String.eqb (Models.Meter.type m) "electricity")
            (fetch_unit_meters data (Models.Unit.id u)))
    with (List.find Spec.is_electricity (fetch_unit_meters data (Models.Unit.id u))).
  rewrite (unit_readings_fetched data a u in_reach). cbn [bind].
  rewrite value_from_cap_value. cbn [bind].
  rewrite occupancy_rate_value.
  fold unit_leases. fold readings.
  assert (E : match readings_by_day readings with
              | [] => Ok Float.zero
              | _ :: _ => Features.kwh_per_m2_day_from_series u
                            (Dict.values (readings_by_day readings))
              end = Ok (Spec.mean_intensity u (Spec.daily_totals readings))).
  { rewrite <- readings_by_day_values.
    destruct (readings_by_day readings) eqn:Eb.
    - unfold Spec.mean_intensity. cbn [Dict.values map length Nat.eqb].
      now rewrite orb_true_r.
    - apply kwh_per_m2_day_from_series_value. }
  rewrite E.
  destruct (Float.gtb (loan_balance a) Float.zero);
    [rewrite ltv_value |]; cbn [bind]; eexists; repeat split.
Qed.

End Report.

Lemma main_out_of_reach
  (data : Cli.db) (today : Models.date) (a : Cli.args)
  (u : Models.Unit.t) (b : Models.Building.t) (p : Models.Parcel.t) :
  Cli.fetch_unit_core data (Cli.unit_id a) = Some (u, b, p) ->
  ~ Spec.readings_in_reach data a u ->
  Cli.main data today a = Raise OverflowError.
Proof.
  intros found out. unfold Cli.main. rewrite found.
  change (List.find (fun m => String.eqb (Models.Meter.type m) "electricity")
            (Cli.fetch_unit_meters data (Models.Unit.id u)))
    with (List.find Spec.is_electricity (Cli.fetch_unit_meters data (Models.Unit.id u))).
  now rewrite (unit_readings_out_of_reach data a u out).
Qed.

(** X3. The three outcomes of [main], on the results of the queries.
    It raises [ValueError] when the unit is not found.  It raises
    [OverflowError] when the unit is found and has an electricity
    meter, while [--days-back] is a number of days that no [timedelta]
    holds or that leads from the current time out of the years 1 to
    9999.  In every other case it builds the report. *)
Theorem main_outcome (data : Cli.db) (today : Models.date) (a : Cli.args) :
  match Cli.fetch_unit_core data (Cli.unit_id a) with
  | None => Cli.main data today a = Raise ValueError
  | Some (u, _, _) =>
      if existsb Spec.is_electricity (Cli.fetch_unit_meters data (Models.Unit.id u))
         && negb (Spec.window_in_range (Cli.utcnow data) (Cli.days_back a))
      then Cli.main data today a = Raise OverflowError
      else returns (Cli.main data today a)
  end.
Proof.
  destruct (Cli.fetch_unit_core data (Cli.unit_id a)) as [[[u b] p] |] eqn:E;
    [| now apply main_not_found].
  destruct (existsb Spec.is_electricity _) eqn:Em;
    [destruct (Spec.window_in_range _ _) eqn:Ew |]; cbn [andb negb].
  - destruct (main_sections data today a u b p E) as (r & Hr & _); [| now exists r].
    intros _. exact Ew.
  - apply (main_out_of_reach data today a u b p E).
    unfold Spec.readings_in_reach. rewrite Em, Ew. intros H. now specialize (H eq_refl).
  - destruct (main_sections data today a u b p E) as (r & Hr & _); [| now exists r].
    unfold Spec.readings_in_reach. rewrite Em. discriminate.
Qed.

(** The sample unit has an electricity meter: a window of 800000 days
    would start before the year 1, and one of [10^9] days is no
    [timedelta]. *)
Lemma main_outcome_witness :
  Cli.main Sample.data Sample.today (Sample.args_days_back 800000) = Raise OverflowError
  /\ Cli.main Sample.data Sample.today (Sample.args_days_back 1000000000)
     = Raise OverflowError
  /\ returns (Cli.main Sample.data Sample.today (Sample.args_days_back 738999))
  /\ returns (Cli.main Sample.vacant_data Sample.today (Sample.args_days_back 800000)).
Proof.
  split; [| split; [| split]].
  - exact (main_outcome Sample.data Sample.today (Sample.args_days_back 800000)).
  - exact (main_outcome Sample.data Sample.today (Sample.args_days_back 1000000000)).
  - exact (main_outcome Sample.data Sample.today (Sample.args_days_back 738999)).
  - exact (main_outcome Sample.vacant_data Sample.today (Sample.args_days_back 800000)).
Defined.

Lemma find_none_iff {A : Type} (f : A -> bool) (l : list A) :
  (forall x, In x l -> f x = false) -> List.find f l = None.
Proof.
  induction l as [| x l IH]; intros H; [reflexivity |]. cbn [List.find].
  rewrite (H x) by now left. apply IH. intros y Hy. apply H. now right.
Qed.

Lemma find_first {A : Type} (f : A -> bool) (before after : list A) (x : A) :
  (forall y, In y before -> f y = false) -> f x = true ->
  List.find f (before ++ x :: after) = Some x.
Proof.
  induction before as [| y before IH]; intros H Hx; cbn [app List.find].
  - now rewrite Hx.
  - rewrite (H y) by now left. apply IH; [| exact Hx]. intros z Hz. apply H. now right.
Qed.

(** X4. The energy section of a report that is produced: the window is
    the [--days-back] argument; without an electricity meter the
    intensity is [0.0]; otherwise the rows of the first electricity
    meter from the start of the window on are totalled by calendar day,
    in the order of the first reading of each day, and the intensity is
    the mean of the daily totals over the area of the unit. *)
Theorem main_energy
  (data : Cli.db) (today : Models.date) (a : Cli.args)
  (u : Models.Unit.t) (b : Models.Building.t) (p : Models.Parcel.t) :
  Cli.fetch_unit_core data (Cli.unit_id a) = Some (u, b, p) ->
  Spec.readings_in_reach data a u ->
  exists r,
    Cli.main data today a = Ok r
    /\ Cli.window_days (Cli.energy r) = Cli.days_back a
    /\ ((forall m, In m (Cli.fetch_unit_meters data (Models.Unit.id u))
                   -> Spec.is_electricity m = false)
        -> Cli.kwh_per_m2_day (Cli.energy r) = Float.zero)
    /\ (forall before m after,
          Cli.fetch_unit_meters data (Models.Unit.id u) = before ++ m :: after ->
          (forall m', In m' before -> Spec.is_electricity m' = false) ->
          Spec.is_electricity m = true ->
          Cli.kwh_per_m2_day (Cli.energy r)
          = Spec.mean_intensity u
              (Spec.daily_totals
                 (Cli.meter_reading_rows data (Models.Meter.id m)
                    (Spec.window_start (Cli.utcnow data) (Cli.days_back a))))).
Proof.
  intros found in_reach.
  destruct (main_sections data today a u b p found in_reach) as (r & Hr & _ & _ & He).
  exists r. split; [exact Hr |]. rewrite He. cbn [Cli.window_days Cli.kwh_per_m2_day].
  unfold Spec.unit_readings.
  split; [reflexivity | split].
  - intros Hnone. rewrite (find_none_iff _ _ Hnone).
    unfold Spec.mean_intensity. cbn. now rewrite orb_true_r.
  - intros before m after Hm Hbefore Helec.
    now rewrite Hm, (find_first _ before after m Hbefore Helec).
Qed.

(** The sample unit: daily totals of 20 and 10 kWh over 80 m2. *)
Lemma main_energy_witness :
  exists r,
    Cli.main Sample.data Sample.today (Sample.args 0) = Ok r
    /\ Cli.kwh_per_m2_day (Cli.energy r) = Float.decimal 1875 4.
Proof.
  destruct (main_energy Sample.data Sample.today (Sample.args 0)
              (Sample.unit 1%N) Sample.building Sample.parcel eq_refl (fun _ => eq_refl))
    as (r & Hr & _ & _ & Hfirst).
  exists r. split; [exact Hr |].
  rewrite (Hfirst [] Sample.meter []).
  - vm_compute. reflexivity.
  - reflexivity.
  - intros m' [].
  - reflexivity.
Defined.

(** X5. With an assumed cap rate that is zero or negative the implied
    value of a report that is produced is infinite, and a positive
    finite loan balance then gives the LTV [0.0]. *)
Theorem main_nonpositive_cap_rate
  (data : Cli.db) (today : Models.date) (a : Cli.args)
  (u : Models.Unit.t) (b : Models.Building.t) (p : Models.Parcel.t) :
  Cli.fetch_unit_core data (Cli.unit_id a) = Some (u, b, p) ->
  Spec.readings_in_reach data a u ->
  Float.leb (Cli.assumed_cap_rate a) Float.zero = true ->
  exists r,
    Cli.main data today a = Ok r
    /\ Cli.implied_value (Cli.valuation r) = Float.inf
    /\ (Float.gtb (Cli.loan_balance a) Float.zero = true ->
        Cli.loan_balance a <> Float.inf ->
        Cli.ltv_from_input_balance (Cli.valuation r) = Some Float.zero).
Proof.
  intros found in_reach Hcap.
  destruct (main_valuation data today a u b p found in_reach) as (r & Hr & Hv).
  exists r. split; [exact Hr |]. rewrite Hv. cbn. rewrite Hcap.
  split; [reflexivity |]. intros Hloan Hfin. rewrite Hloan. cbn. f_equal.
  destruct (Cli.loan_balance a) as [s | s | | s m e]; try destruct s;
    try discriminate; try reflexivity.
  exfalso. now apply Hfin.
Qed.

(** The sample unit at a cap rate of zero. *)
Lemma main_nonpositive_cap_rate_witness :
  exists r,
    Cli.main Sample.data Sample.today (Sample.args_with Float.zero 400000) = Ok r
    /\ Cli.implied_value (Cli.valuation r) = Float.inf
    /\ Cli.ltv_from_input_balance (Cli.valuation r) = Some Float.zero.
Proof.
  destruct (main_nonpositive_cap_rate Sample.data Sample.today
              (Sample.args_with Float.zero 400000)
              (Sample.unit 1%N) Sample.building Sample.parcel eq_refl (fun _ => eq_refl) eq_refl)
    as (r & Hr & Hinf & Hltv).
  exists r. repeat split; [exact Hr | exact Hinf |].
  apply Hltv; [reflexivity | discriminate].
Defined.

(** ** The values of the guarded ratios *)

(** X6. The ten ratios with the guard [b <= 0] are one function: they
    return [0.0] for a divisor that is zero or negative and the float
    quotient otherwise, and raise nothing.  A NaN divisor passes the
    guard, so the result is then NaN, not [0.0]. *)
Theorem guarded_ratios_value (a b : Float.float) :
  let q := Ok (if Float.leb b Float.zero then Float.zero else Float.div a b) in
  Features.cap_rate a b = q /\ Features.dscr a b = q /\ Features.equity_multiple a b = q
  /\ Features.yield_on_cost a b = q /\ Features.ltv a b = q /\ Features.cltv a b = q
  /\ Features.dti a b = q /\ Features.far a b = q /\ Features.coverage_ratio a b = q
  /\ Features.water_intensity_m3_per_m2_year a b = q
  /\ (Float.is_nan b = true -> q = Ok Float.nan).
Proof.
  cbv zeta.
  unfold Features.cap_rate, Features.dscr, Features.equity_multiple, Features.yield_on_cost,
    Features.ltv, Features.cltv, Features.dti, Features.far, Features.coverage_ratio,
    Features.water_intensity_m3_per_m2_year.
  destruct (Float.leb b Float.zero) eqn:E.
  - repeat split. intros Hn. destruct b; discriminate.
  - rewrite (truediv_guarded a b E). repeat split.
    intros Hn. destruct b; try discriminate. now destruct a.
Qed.

(** An LTV over a NaN value is NaN. *)
Lemma guarded_ratios_value_witness :
  Features.ltv (Float.of_Z 400000) Float.nan = Ok Float.nan.
Proof.
  pose proof (guarded_ratios_value (Float.of_Z 400000) Float.nan) as H. cbv zeta in H.
  destruct H as (_ & _ & _ & _ & Hltv & _ & _ & _ & _ & _ & Hnan).
  rewrite Hltv. apply Hnan. reflexivity.
Defined.

Lemma max_zero_nonneg (r : Float.float) :
  Float.leb Float.zero (Float.max Float.zero r) = true.
Proof. destruct r as [s | s | | s m e]; try destruct s; reflexivity. Qed.

(** X7. [simple_hazard_distance_score] returns [1.0] at or beyond the
    threshold; it raises exactly when the threshold is zero and the
    distance is not at or beyond it, and then [ZeroDivisionError]; a
    score that is returned is never negative. *)
Theorem simple_hazard_distance_score_behaviour (distance_m threshold_m : Float.float) :
  (Float.geb distance_m threshold_m = true ->
   Features.simple_hazard_distance_score distance_m threshold_m = Ok Float.one)
  /\ (Features.simple_hazard_distance_score distance_m threshold_m = Raise ZeroDivisionError
      <-> Float.is_zero threshold_m = true /\ Float.geb distance_m threshold_m = false)
  /\ (forall e, Features.simple_hazard_distance_score distance_m threshold_m = Raise e
                -> e = ZeroDivisionError)
  /\ (forall score, Features.simple_hazard_distance_score distance_m threshold_m = Ok score
                    -> Float.leb Float.zero score = true).
Proof.
  unfold Features.simple_hazard_distance_score, Float.truediv.
  destruct (Float.geb distance_m threshold_m) eqn:Eg.
  - repeat split; try discriminate.
    + intros [_ H]. discriminate.
    + intros score H. inversion H. reflexivity.
  - destruct (Float.is_zero threshold_m) eqn:Ez; cbn [bind].
    + repeat split; try discriminate; auto. intros e H. now inversion H.
    + repeat split; try discriminate.
      * intros [H _]. discriminate.
      * intros score H. inversion H. apply max_zero_nonneg.
Qed.

(** Half way to the threshold the score is [0.5], which is not negative. *)
Lemma simple_hazard_distance_score_behaviour_witness :
  Float.leb Float.zero (Float.decimal 5 1) = true.
Proof.
  destruct (simple_hazard_distance_score_behaviour (Float.of_Z 250) (Float.of_Z 500))
    as (_ & _ & _ & Hnonneg).
  apply Hnonneg. vm_compute. reflexivity.
Defined.

(** X8. [deductible_effect_expected_cost] returns the expected claim
    unchanged for a claim count that is zero or negative; otherwise it
    returns a cost that is not negative. *)
Theorem deductible_effect_expected_cost_behaviour
  (expected_annual_claim_sar deductible_sar claim_count_per_year : Float.float) :
  (Float.leb claim_count_per_year Float.zero = true ->
   Features.deductible_effect_expected_cost
     expected_annual_claim_sar deductible_sar claim_count_per_year
   = Ok expected_annual_claim_sar)
  /\ (Float.leb claim_count_per_year Float.zero = false ->
      exists cost,
        Features.deductible_effect_expected_cost
          expected_annual_claim_sar deductible_sar claim_count_per_year
        = Ok cost
        /\ Float.leb Float.zero cost = true).
Proof.
  unfold Features.deductible_effect_expected_cost. split; intros H; rewrite H.
  - reflexivity.
  - rewrite (truediv_guarded _ _ H). cbn [bind]. eexists. split; [reflexivity |].
    apply max_zero_nonneg.
Qed.

(** Two claims a year with a deductible of 800. *)
Lemma deductible_effect_expected_cost_behaviour_witness :
  exists cost,
    Features.deductible_effect_expected_cost (Float.of_Z 1000) (Float.of_Z 800) (Float.of_Z 2)
    = Ok cost
    /\ Float.leb Float.zero cost = true.
Proof.
  destruct (deductible_effect_expected_cost_behaviour
              (Float.of_Z 1000) (Float.of_Z 800) (Float.of_Z 2)) as (_ & Hpos).
  apply Hpos. reflexivity.
Defined.

(** X9. [mttr] and [opex_per_unit] are one function: [0.0] for a count
    that is zero or negative, otherwise the total over the count
    converted to a float.  A count below [2**53] always gives a result,
    and no count makes them divide by zero. *)
Theorem count_ratios_behaviour (total : Float.float) (n : Z) :
  Features.mttr total n = Features.opex_per_unit total n
  /\ (n <= 0 -> Features.mttr total n = Ok Float.zero)
  /\ (forall fn, 0 < n -> Float.of_int n = Ok fn ->
                 Features.mttr total n = Ok (Float.div total fn))
  /\ (0 < n < 2 ^ 53 -> returns (Features.mttr total n))
  /\ Features.mttr total n <> Raise ZeroDivisionError.
Proof.
  split; [reflexivity |]. split; [| split; [| split]].
  - intros Hn. unfold Features.mttr. apply Z.leb_le in Hn. now rewrite Hn.
  - intros fn Hn Hfn. unfold Features.mttr, Float.truediv_int, Float.truediv.
    replace (n <=? 0) with false by (symmetry; apply Z.leb_gt; lia).
    rewrite Hfn. cbn [bind]. now rewrite (of_int_nonzero n fn) by (lia || assumption).
  - intros Hn. destruct (of_int_small n Hn) as [fn Hfn].
    unfold Features.mttr, Float.truediv_int, Float.truediv, returns.
    replace (n <=? 0) with false by (symmetry; apply Z.leb_gt; lia).
    rewrite Hfn. cbn [bind]. rewrite (of_int_nonzero n fn) by (lia || assumption). eauto.
  - apply (count_ratios_no_zero_division total n).
Qed.

(** Ten hours over four tickets. *)
Lemma count_ratios_behaviour_witness :
  Features.mttr (Float.of_Z 10) 4 = Ok (Float.div (Float.of_Z 10) (Float.of_Z 4)).
Proof.
  destruct (count_ratios_behaviour (Float.of_Z 10) 4) as (_ & _ & Hdiv & _).
  apply Hdiv; [lia | vm_compute; reflexivity].
Defined.

(** ** Ratios of two counts, and averages *)

Lemma int_truediv_no_zero_division (a b : Z) :
  b <> 0 -> forall e, Float.int_truediv a b = Raise e -> e = OverflowError.
Proof.
  intros Hb e. unfold Float.int_truediv.
  replace (b =? 0) with false by (symmetry; now apply Z.eqb_neq).
  destruct (Float.div (Float.exact_int a) (Float.exact_int b)); intros H; now inversion H.
Qed.

Lemma int_truediv_zero (b : Z) : b <> 0 -> exists s, Float.int_truediv 0 b = Ok (S754_zero s).
Proof.
  intros Hb. unfold Float.int_truediv.
  replace (b =? 0) with false by (symmetry; now apply Z.eqb_neq).
  destruct b as [| p | p]; [congruence | |]; cbn; eauto.
Qed.

(** X10. [turnover_rate], [parking_ratio], [amenity_utilization] and
    [cohort_churn_rate] are one function of two integers: [0.0] for a
    total that is zero or negative, [0.0] for the count zero, and the
    only exception they raise is [OverflowError]. *)
Theorem int_ratios_behaviour (count total : Z) :
  Features.turnover_rate count total = Features.parking_ratio count total
  /\ Features.amenity_utilization count total = Features.parking_ratio count total
  /\ Features.cohort_churn_rate count total = Features.parking_ratio count total
  /\ (total <= 0 -> Features.parking_ratio count total = Ok Float.zero)
  /\ (0 < total -> Features.parking_ratio 0 total = Ok Float.zero)
  /\ (forall e, Features.parking_ratio count total = Raise e -> e = OverflowError).
Proof.
  repeat (split; [reflexivity |]). unfold Features.parking_ratio.
  split; [| split].
  - intros H. apply Z.leb_le in H. now rewrite H.
  - intros H. replace (total <=? 0) with false by (symmetry; apply Z.leb_gt; lia).
    unfold Float.int_truediv.
    replace (total =? 0) with false by (symmetry; apply Z.eqb_neq; lia).
    destruct total as [| t | t]; try lia. reflexivity.
  - intros e. destruct (Z.leb_spec total 0) as [H | H]; [discriminate |].
    apply int_truediv_no_zero_division. lia.
Qed.

(** Three spaces for no unit. *)
Lemma int_ratios_behaviour_witness :
  Features.parking_ratio 3 0 = Ok Float.zero.
Proof.
  destruct (int_ratios_behaviour 3 0) as (_ & _ & _ & Hguard & _).
  apply Hguard. lia.
Defined.

(** X11. [avg_time_to_lease] returns [0.0] for no vacancy and for
    vacancies that sum to zero, and the only exception it raises is
    [OverflowError]. *)
Theorem avg_time_to_lease_behaviour :
  Features.avg_time_to_lease [] = Ok Float.zero
  /\ (forall days e, Features.avg_time_to_lease days = Raise e -> e = OverflowError)
  /\ (forall days,
        days <> [] -> fold_left Z.add days 0 = 0 ->
        Features.avg_time_to_lease days = Ok Float.zero).
Proof.
  split; [reflexivity | split].
  - intros [| d days] e; [discriminate |]. unfold Features.avg_time_to_lease.
    apply int_truediv_no_zero_division. cbn [length]. lia.
  - intros [| d days] Hne Hsum; [congruence |]. unfold Features.avg_time_to_lease.
    rewrite Hsum. unfold Float.int_truediv.
    replace (Z.of_nat (length (d :: days)) =? 0) with false
      by (symmetry; apply Z.eqb_neq; cbn [length]; lia).
    destruct (Z.of_nat (length (d :: days))) as [| t | t] eqn:E; cbn [length] in E; try lia.
    reflexivity.
Qed.

(** Three vacancies of no day average to [0.0]. *)
Lemma avg_time_to_lease_behaviour_witness :
  Features.avg_time_to_lease [0; 0; 0] = Ok Float.zero.
Proof.
  destruct avg_time_to_lease_behaviour as (_ & _ & Hzero).
  apply Hzero; [discriminate | reflexivity].
Defined.




(** X13. [kwh_per_m2_day_from_series] never raises: it is the mean of
    the daily values over the area of the unit, and [0.0] without a
    daily value or without a positive area. *)
Theorem kwh_per_m2_day_from_series_behaviour (u : Models.Unit.t) :
  (forall vals, Features.kwh_per_m2_day_from_series u vals = Ok (Spec.mean_intensity u vals))
  /\ Features.kwh_per_m2_day_from_series u [] = Ok Float.zero
  /\ (Float.leb (Models.Unit.nla_m2 u) Float.zero = true ->
      forall vals, Features.kwh_per_m2_day_from_series u vals = Ok Float.zero).
Proof.
  split; [apply kwh_per_m2_day_from_series_value | split].
  - rewrite kwh_per_m2_day_from_series_value. unfold Spec.mean_intensity.
    cbn [length Nat.eqb]. now rewrite orb_true_r.
  - intros H vals. rewrite kwh_per_m2_day_from_series_value. unfold Spec.mean_intensity.
    now rewrite H.
Qed.

(** A unit without area has intensity [0.0]. *)
Lemma kwh_per_m2_day_from_series_behaviour_witness :
  Features.kwh_per_m2_day_from_series Sample.unit_without_area [Float.of_Z 12; Float.of_Z 8]
  = Ok Float.zero.
Proof.
  destruct (kwh_per_m2_day_from_series_behaviour Sample.unit_without_area) as (_ & _ & Harea).
  apply Harea. reflexivity.
Defined.

(** ** Occupancy and average life under a change of the input *)

Lemma has_active_lease_exists (leases : list Models.Lease.t) (i : Models.UUID) :
  Spec.has_active_lease leases i = true
  <-> exists l, In l leases /\ Spec.is_active l = true /\ Models.Lease.unit_id l = i.
Proof.
  unfold Spec.has_active_lease. rewrite existsb_exists.
  split; intros (l & Hl & H).
  - apply andb_true_iff in H as [Ha Hi]. apply N.eqb_eq in Hi. eauto.
  - exists l. split; [exact Hl |]. destruct H as [-> <-]. now rewrite N.eqb_refl.
Qed.

(** X14. [occupancy_rate] depends on the units and on the leases as sets
    only: neither the order of the lists nor a repetition in them
    changes the rate. *)
Theorem occupancy_rate_set_semantics
  (units units' : list Models.Unit.t) (leases leases' : list Models.Lease.t) :
  (forall i, In i (map Models.Unit.id units) <-> In i (map Models.Unit.id units')) ->
  (forall l, In l leases <-> In l leases') ->
  Features.occupancy_rate units leases = Features.occupancy_rate units' leases'.
Proof.
  intros Hu Hl. unfold Features.occupancy_rate.
  assert (Eu : Features.unit_id_set units = Features.unit_id_set units').
  { rewrite !unit_id_set_list. apply set_eq. intros i.
    rewrite !elem_of_list_to_set, !list_elem_of_In. apply Hu. }
  assert (Eo : Features.occupied_units leases = Features.occupied_units leases').
  { apply set_eq. intros i. rewrite !elem_of_occupied_units, !has_active_lease_exists.
    split; intros (l & Hin & H); exists l; (split; [now apply Hl | exact H]). }
  now rewrite Eu, Eo.
Qed.

(** A repeated unit and a different order give the same rate. *)
Lemma occupancy_rate_set_semantics_witness :
  Features.occupancy_rate [Sample.unit 1%N; Sample.unit 2%N; Sample.unit 1%N]
    [Sample.lease 1%N 1000 "active"; Sample.lease 2%N 900 "expired"]
  = Features.occupancy_rate [Sample.unit 2%N; Sample.unit 1%N]
      [Sample.lease 2%N 900 "expired"; Sample.lease 1%N 1000 "active"].
Proof.
  apply occupancy_rate_set_semantics.
  - intros i. cbn. tauto.
  - intros l. cbn. tauto.
Defined.

(** X15. Called with one unit, as the report does, [occupancy_rate] is
    [1.0] when the unit has an active lease and [0.0] otherwise; leases
    of other units do not count. *)
Theorem occupancy_rate_single_unit (u : Models.Unit.t) (leases : list Models.Lease.t) :
  Features.occupancy_rate [u] leases
  = Ok (if Spec.has_active_lease leases (Models.Unit.id u) then Float.one else Float.zero).
Proof.
  rewrite occupancy_rate_value. unfold Spec.occupied_unit_count, Spec.distinct_unit_ids.
  change (remove_dups (map Models.Unit.id [u])) with [Models.Unit.id u].
  cbn [List.filter].
  now destruct (Spec.has_active_lease leases (Models.Unit.id u)).
Qed.

Lemma comprehension_pointwise {A B : Type} (f g : A -> result B) (xs : list A) :
  (forall x, f x = g x) -> comprehension f xs = comprehension g xs.
Proof.
  intros H. induction xs as [| x xs IH]; [reflexivity |].
  cbn [comprehension]. now rewrite H, IH.
Qed.

Lemma min_date_shift (k d0 : Models.date) (ds : list Models.date) :
  Features.min_date (d0 + k) (map (fun d => d + k) ds) = Features.min_date d0 ds + k.
Proof.
  unfold Features.min_date. revert d0.
  induction ds as [| d ds IH]; intros d0; [reflexivity |].
  cbn [map fold_left].
  replace (d + k <? d0 + k) with (d <? d0)
    by (destruct (Z.ltb_spec d d0), (Z.ltb_spec (d + k) (d0 + k)); lia || reflexivity).
  destruct (d <? d0); apply IH.
Qed.

(** X16. [weighted_average_life] depends on the distances between the
    dates only: moving every date of the schedule by the same number of
    days changes nothing. *)
Theorem weighted_average_life_shift (k : Z) (schedule : list (Models.date * Float.float)) :
  Features.weighted_average_life (map (fun item => (fst item + k, snd item)) schedule)
  = Features.weighted_average_life schedule.
Proof.
  destruct schedule as [| [d0 p0] rest]; [reflexivity |].
  unfold Features.weighted_average_life. cbn [map fst snd].
  rewrite !(map_map _ fst), !(map_map _ snd). cbn [fst snd].
  change (map (fun x : Z * Float.float => snd x) rest) with (map snd rest).
  rewrite <- (map_map fst (fun d => d + k)), min_date_shift.
  destruct (Float.leb _ Float.zero); [reflexivity |].
  f_equal.
  change ((d0 + k, p0) :: map ?g rest) with (map g ((d0, p0) :: rest)).
  rewrite comprehension_map. apply comprehension_pointwise.
  intros [d p]. cbn [fst snd]. unfold Features.years_between.
  unfold Models.date in *. do 3 f_equal. lia.
Qed.

(** ** Compliance flags and the package *)

(** X17. [zoning_mismatch] reports no mismatch exactly when the zoning
    code has an entry that lists the actual use; a code without an
    entry, or with an empty one, is a mismatch. *)
Theorem zoning_mismatch_behaviour
  (actual_use zoning_code : string) (allowed_map : gmap string (list string)) :
  (Features.zoning_mismatch actual_use zoning_code allowed_map = false
   <-> exists allowed, allowed_map !! zoning_code = Some allowed /\ In actual_use allowed)
  /\ (allowed_map !! zoning_code = None ->
      Features.zoning_mismatch actual_use zoning_code allowed_map = true)
  /\ (allowed_map !! zoning_code = Some [] ->
      Features.zoning_mismatch actual_use zoning_code allowed_map = true).
Proof.
  unfold Features.zoning_mismatch.
  split; [| split].
  - rewrite negb_false_iff, bool_decide_eq_true, list_elem_of_In.
    destruct (allowed_map !! zoning_code) as [allowed |]; cbn [default].
    + split; [intros H; now exists allowed | intros (? & E & H); now inversion E; subst].
    + split; [intros [] | intros (? & E & _); discriminate].
  - intros ->. reflexivity.
  - intros ->. reflexivity.
Qed.

(** A zoning code that the map does not know. *)
Lemma zoning_mismatch_behaviour_witness :
  Features.zoning_mismatch "residential" "R9"
    {[ "R2"%string := ["residential"%string; "retail"%string] ]} = true.
Proof.
  destruct (zoning_mismatch_behaviour "residential" "R9"
              {[ "R2"%string := ["residential"%string; "retail"%string] ]})
    as (_ & Hmissing & _).
  apply Hmissing. reflexivity.
Defined.

(** X18. [tape_qc_flags] raises no flag exactly when there is a valuation
    date, a completion date at most 3650 days back, and a clean title.
    A permit that is stale stays stale on every later day, and the flag
    agrees with [days_since_last_occupancy] of a permit with that
    completion date. *)
Theorem tape_qc_flags_behaviour
  (today : Models.date) (valuation_date permit_completed_on : option Models.date)
  (title_clean_flag : bool) :
  let flags := Features.tape_qc_flags today valuation_date permit_completed_on title_clean_flag in
  ((Features.valuation_missing flags = false /\ Features.permit_stale flags = false
    /\ Features.title_not_clean flags = false)
   <-> (valuation_date <> None
        /\ (exists completed_on,
              permit_completed_on = Some completed_on /\ today - completed_on <= 3650)
        /\ title_clean_flag = true))
  /\ (forall later,
        today <= later -> Features.permit_stale flags = true ->
        Features.permit_stale
          (Features.tape_qc_flags later valuation_date permit_completed_on title_clean_flag)
        = true)
  /\ (forall perm,
        permit_completed_on = Models.Permit.completed_on perm ->
        Features.permit_stale flags
        = match Features.days_since_last_occupancy today (Some perm) with
          | None => true
          | Some days => 3650 <? days
          end).
Proof.
  cbv zeta. unfold Features.tape_qc_flags. cbn [Features.valuation_missing
    Features.permit_stale Features.title_not_clean].
  split; [| split].
  - destruct valuation_date, permit_completed_on as [c |], title_clean_flag; cbn [negb];
      split; intros (H1 & H2 & H3); try discriminate; try congruence;
      try (destruct H2 as (? & E & _); discriminate).
    + repeat split; [discriminate |]. exists c. split; [reflexivity |].
      apply Z.ltb_ge in H2. lia.
    + repeat split. destruct H2 as (c' & E & Hle). inversion E; subst.
      apply Z.ltb_ge. lia.
  - intros later Hle. destruct permit_completed_on as [c |]; [| reflexivity].
    rewrite !Z.ltb_lt. lia.
  - intros perm ->. unfold Features.days_since_last_occupancy.
    now destruct (Models.Permit.completed_on perm).
Qed.

(** A permit completed 9000 days back is stale, and still so 6000 days later. *)
Lemma tape_qc_flags_behaviour_witness :
  Features.permit_stale (Features.tape_qc_flags 745000 None (Some 730000) true) = true.
Proof.
  pose proof (tape_qc_flags_behaviour 739000 None (Some 730000) true) as H. cbv zeta in H.
  destruct H as (_ & Hlater & _).
  apply Hlater; [lia | reflexivity].
Defined.

(** X19. In the package of [los_package_dict] a clean title is a present
    title whose lien is clear; the title is absent exactly when the deed
    number is; the occupancy permit is present exactly when the latest
    permit is of kind [occupancy], while its completion date is that of
    the latest permit of any kind. *)
Theorem los_package_dict_behaviour
  (u : Models.Unit.t) (b : Models.Building.t) (p : Models.Parcel.t)
  (latest_title : option Models.TitleRecord.t) (latest_permit : option Models.Permit.t)
  (avm_value : option Float.float) (valuation_date : option Models.date) :
  let package :=
    Features.los_package_dict u b p latest_title latest_permit avm_value valuation_date in
  let title := Features.los_title package in
  let permit := Features.los_permit_occupancy package in
  (Features.LosTitle.clean title = true ->
   Features.LosTitle.present title = true
   /\ exists t, latest_title = Some t
                /\ Features.LosTitle.deed_no title = Some (Models.TitleRecord.deed_no t)
                /\ Spec.lien_is_clear (Models.TitleRecord.encumbrance t))
  /\ (Features.LosTitle.present title = false
      <-> Features.LosTitle.deed_no title = None)
  /\ (Features.LosPermit.present permit = true
      <-> exists perm, latest_permit = Some perm
                       /\ Models.Permit.kind perm = "occupancy"%string)
  /\ (forall perm,
        latest_permit = Some perm ->
        Features.LosPermit.completed_on permit = Models.Permit.completed_on perm).
Proof.
  cbv zeta. unfold Features.los_package_dict. cbn.
  split; [| split; [| split]].
  - destruct latest_title as [t |]; [| discriminate].
    intros H. split; [reflexivity |]. exists t. repeat split.
    unfold Features.title_clean_flag_from_record in H.
    apply bool_decide_eq_true_1 in H. now apply lien_status_clear.
  - destruct latest_title; split; discriminate || reflexivity.
  - destruct latest_permit as [perm |].
    + rewrite String.eqb_eq. split; [intros H; now exists perm |].
      intros (perm' & E & H). now inversion E; subst.
    + split; [discriminate | intros (? & E & _); discriminate].
  - now intros perm ->.
Qed.

(** A released lien with a completion permit. *)
Lemma los_package_dict_behaviour_witness :
  Features.LosTitle.present
    (Features.los_title
       (Features.los_package_dict (Sample.unit 1%N) Sample.building Sample.parcel
          (Some (Sample.title {[ "lien_status"%string := "Released"%string ]}))
          (Some (Sample.permit "completion" (Some 730000))) None None)) = true.
Proof.
  pose proof (los_package_dict_behaviour (Sample.unit 1%N) Sample.building Sample.parcel
                (Some (Sample.title {[ "lien_status"%string := "Released"%string ]}))
                (Some (Sample.permit "completion" (Some 730000))) None None) as H.
  cbv zeta in H. destruct H as (Hclean & _).
  apply Hclean. vm_compute. reflexivity.
Defined.

(** X20. [building_age_years] is never negative: it is zero exactly when
    the year of reference is not after the year built, and the
    difference of the two years otherwise; the reference defaults to
    today. *)
Theorem building_age_years_behaviour
  (year : Models.date -> Z) (today : Models.date) (b : Models.Building.t)
  (asof : option Models.date) :
  let as_of := default today asof in
  0 <= Models.building_age_years year today b asof
  /\ (Models.building_age_years year today b asof = 0
      <-> year as_of <= Models.Building.year_built b)
  /\ (Models.Building.year_built b <= year as_of ->
      Models.building_age_years year today b asof
      = year as_of - Models.Building.year_built b)
  /\ Models.building_age_years year today b None
     = Models.building_age_years year today b (Some today).
Proof. cbv zeta. unfold Models.building_age_years. cbn [default]. repeat split; lia. Qed.

(** A building of 2010 in a year 2024. *)
Lemma building_age_years_behaviour_witness :
  Models.building_age_years (fun _ => 2024) Sample.today Sample.building None = 14.
Proof.
  pose proof (building_age_years_behaviour (fun _ => 2024) Sample.today Sample.building None)
    as H.
  cbv zeta in H. destruct H as (_ & _ & Hage & _).
  rewrite Hage; [reflexivity | cbn; lia].
Defined.

(** ** The leases and the compliance section of the report *)

Lemma rents_of_active_all (leases : list Models.Lease.t) :
  (forall l, In l leases -> Models.Lease.status l = "active"%string) ->
  Features.rents_of_active leases = map Models.Lease.rent_monthly leases.
Proof.
  induction leases as [| l ls IH]; intros H; [reflexivity |].
  cbn [Features.rents_of_active map]. rewrite (H l) by now left. cbn.
  f_equal. apply IH. intros l' Hl'. apply H. now right.
Qed.

(** X21. The leases section of a report that is produced counts the
    leases fetched for the unit and sums the rents of those whose status
    is [active]; when every fetched lease is active this is the sum of
    all rents. *)
Theorem main_leases_section
  (data : Cli.db) (today : Models.date) (a : Cli.args)
  (u : Models.Unit.t) (b : Models.Building.t) (p : Models.Parcel.t) :
  Cli.fetch_unit_core data (Cli.unit_id a) = Some (u, b, p) ->
  Spec.readings_in_reach data a u ->
  let fetched := Cli.fetch_active_leases data (Models.Unit.id u) in
  exists r,
    Cli.main data today a = Ok r
    /\ Cli.active_count (Cli.leases r) = length fetched
    /\ Cli.rent_monthly_total (Cli.leases r) = Spec.active_rent_sum fetched
    /\ ((forall l, In l fetched -> Models.Lease.status l = "active"%string) ->
        Cli.rent_monthly_total (Cli.leases r)
        = Float.sum (map Models.Lease.rent_monthly fetched)).
Proof.
  intros found in_reach fetched.
  destruct (main_sections data today a u b p found in_reach) as (r & Hr & Hl & _).
  exists r. split; [exact Hr |]. rewrite Hl. cbn [Cli.active_count Cli.rent_monthly_total].
  fold fetched. unfold Features.rent_roll_total, Spec.active_rent_sum.
  split; [reflexivity | split].
  - now rewrite rents_of_active_filter.
  - intros H. now rewrite rents_of_active_all.
Qed.

(** The sample unit has one active lease of 5000. *)
Lemma main_leases_section_witness :
  exists r,
    Cli.main Sample.data Sample.today (Sample.args 0) = Ok r
    /\ Cli.active_count (Cli.leases r) = 1%nat
    /\ Cli.rent_monthly_total (Cli.leases r) = Float.of_Z 5000.
Proof.
  pose proof (main_leases_section Sample.data Sample.today (Sample.args 0)
                (Sample.unit 1%N) Sample.building Sample.parcel eq_refl (fun _ => eq_refl)) as H.
  cbv zeta in H. destruct H as (r & Hr & Hcount & _ & Hall).
  exists r. repeat split; [exact Hr | exact Hcount |].
  rewrite Hall; [reflexivity |].
  intros l [<- | []]. reflexivity.
Defined.

(** X22. For a unit without a lease and a positive cap rate a report
    that is produced shows NOI [0.0], implied value [0.0], and LTV [0.0]
    for any positive loan balance. *)
Theorem main_vacant_unit
  (data : Cli.db) (today : Models.date) (a : Cli.args)
  (u : Models.Unit.t) (b : Models.Building.t) (p : Models.Parcel.t) :
  Cli.fetch_unit_core data (Cli.unit_id a) = Some (u, b, p) ->
  Spec.readings_in_reach data a u ->
  Cli.fetch_active_leases data (Models.Unit.id u) = [] ->
  Float.gtb (Cli.assumed_cap_rate a) Float.zero = true ->
  exists r,
    Cli.main data today a = Ok r
    /\ Cli.noi_annual (Cli.valuation r) = Float.zero
    /\ Cli.implied_value (Cli.valuation r) = Float.zero
    /\ (Float.gtb (Cli.loan_balance a) Float.zero = true ->
        Cli.ltv_from_input_balance (Cli.valuation r) = Some Float.zero).
Proof.
  intros found in_reach Hnone Hcap.
  destruct (main_valuation data today a u b p found in_reach) as (r & Hr & Hv).
  exists r. split; [exact Hr |]. rewrite Hv, Hnone.
  cbn [Cli.noi_annual Cli.implied_value Cli.ltv_from_input_balance].
  change (Features.noi (Features.rent_roll_total []) Float.zero Float.zero) with Float.zero.
  assert (E : (if Float.leb (Cli.assumed_cap_rate a) Float.zero then Float.inf
               else Float.div Float.zero (Cli.assumed_cap_rate a)) = Float.zero).
  { destruct (Cli.assumed_cap_rate a) as [s | s | | s m e]; try destruct s;
      discriminate || reflexivity. }
  rewrite E. split; [reflexivity | split; [reflexivity |]].
  intros ->. reflexivity.
Qed.

(** The vacant sample unit with a loan of 400000. *)
Lemma main_vacant_unit_witness :
  exists r,
    Cli.main Sample.vacant_data Sample.today (Sample.args 400000) = Ok r
    /\ Cli.implied_value (Cli.valuation r) = Float.zero
    /\ Cli.ltv_from_input_balance (Cli.valuation r) = Some Float.zero.
Proof.
  destruct (main_vacant_unit Sample.vacant_data Sample.today (Sample.args 400000)
              (Sample.unit 1%N) Sample.building Sample.parcel eq_refl (fun _ => eq_refl) eq_refl eq_refl)
    as (r & Hr & _ & Hvalue & Hltv).
  exists r. repeat split; [exact Hr | exact Hvalue | exact (Hltv eq_refl)].
Defined.

(** X23. The compliance section of a report that is produced: the title
    is clean exactly when a title record was fetched and its lien is
    clear; the days since occupancy are absent exactly when no permit
    was fetched or the fetched one has no completion date, and are
    otherwise the days from that date to today, whatever the kind of
    the permit. *)
Theorem main_compliance
  (data : Cli.db) (today : Models.date) (a : Cli.args)
  (u : Models.Unit.t) (b : Models.Building.t) (p : Models.Parcel.t) :
  Cli.fetch_unit_core data (Cli.unit_id a) = Some (u, b, p) ->
  Spec.readings_in_reach data a u ->
  let permit := Cli.fetch_latest_permit_for_building data (Models.Building.id b) in
  let title := Cli.fetch_latest_title data (Models.Unit.id u) (Models.Parcel.id p) in
  exists r,
    Cli.main data today a = Ok r
    /\ (Cli.title_clean (Cli.compliance r) = true
        <-> exists t, title = Some t /\ Spec.lien_is_clear (Models.TitleRecord.encumbrance t))
    /\ (Cli.days_since_occupancy (Cli.compliance r) = None
        <-> forall perm, permit = Some perm -> Models.Permit.completed_on perm = None)
    /\ (forall perm completed_on,
          permit = Some perm ->
          Models.Permit.completed_on perm = Some completed_on ->
          Cli.days_since_occupancy (Cli.compliance r) = Some (today - completed_on)).
Proof.
  intros found in_reach permit title.
  destruct (main_sections data today a u b p found in_reach) as (r & Hr & _ & Hc & _).
  exists r. split; [exact Hr |]. rewrite Hc. cbn [Cli.title_clean Cli.days_since_occupancy].
  fold permit title. split; [| split].
  - unfold Features.title_clean_flag_from_record. destruct title as [t |].
    + rewrite bool_decide_eq_true, lien_status_clear. split.
      * intros H. now exists t.
      * intros (t' & [= <-] & H). exact H.
    + split; [discriminate |]. intros (t & [=] & _).
  - unfold Features.days_since_last_occupancy. destruct permit as [perm |].
    + destruct (Models.Permit.completed_on perm) as [c |] eqn:Ec.
      * split; [discriminate |]. intros H. specialize (H perm eq_refl). congruence.
      * split; [| reflexivity]. intros _ perm' [= <-]. exact Ec.
    + split; [| reflexivity]. intros _ perm [=].
  - intros perm c -> Hc'. unfold Features.days_since_last_occupancy. now rewrite Hc'.
Qed.

(** A completion permit of 9000 days back. *)
Lemma main_compliance_witness :
  exists r,
    Cli.main Sample.vacant_data Sample.today (Sample.args 0) = Ok r
    /\ Cli.days_since_occupancy (Cli.compliance r) = Some 9000.
Proof.
  pose proof (main_compliance Sample.vacant_data Sample.today (Sample.args 0)
                (Sample.unit 1%N) Sample.building Sample.parcel eq_refl (fun _ => eq_refl)) as H.
  cbv zeta in H. destruct H as (r & Hr & _ & _ & Hdays).
  exists r. split; [exact Hr |].
  apply (Hdays (Sample.permit "completion" (Some 730000)) 730000); reflexivity.
Defined.
